(** * Employee Management API: the in-memory store and its HTTP handlers

    A shallow embedding of [main.go]: the [Employee] record, the store
    ([employees] map and [lastID] counter, both guarded by one mutex), the
    five handlers and the pagination arithmetic of [ListEmployees].

    Conventions.
    - Go's [int] is the 64-bit two's-complement integer; it is carried as a
      [Z] and every arithmetic result goes through [wrap].
    - A [float64] is carried as its IEEE-754 bit pattern; no handler computes
      with a salary.
    - A handler body runs under the mutex wherever it touches the store, so a
      handler is one atomic transition on [Store].
    - [range] over a Go map visits the entries in an order the language leaves
      open, so [ListEmployees] is a relation over the visiting orders.
    - The calls to the logger write to the log file only and are left out;
      the JSON decoder is a parameter of the handlers that read a body. *)

From Stdlib Require Import ZArith Lia String Ascii List Sorted.
From stdpp Require Import base option list gmap strings.

Local Open Scope string_scope.
Local Open Scope Z_scope.

(** ** Machine integers *)

Module GoInt.

Definition intSize : Z := 64.
Definition maxInt : Z := 2 ^ 63 - 1.
Definition minInt : Z := - 2 ^ 63.
Definition maxUint64 : Z := 2 ^ 64 - 1.

(** Two's-complement reduction of a mathematical integer to an [int]. *)
Definition wrap (z : Z) : Z := (z + 2 ^ 63) mod 2 ^ 64 - 2 ^ 63.

(** Reduction to a [uint64]. *)
Definition wrapU (z : Z) : Z := z mod 2 ^ 64.

Definition in_range (z : Z) : Prop := minInt <= z <= maxInt.

End GoInt.
Import GoInt.

(** ** strconv *)

Module strconv.

Inductive Err := ErrSyntax | ErrRange.

(** [strconv.NumError] *)
Record NumError := { Func : string; Num : string; Err_ : Err }.

Definition syntaxError (fn str : string) : NumError :=
  {| Func := fn; Num := str; Err_ := ErrSyntax |}.
Definition rangeError (fn str : string) : NumError :=
  {| Func := fn; Num := str; Err_ := ErrRange |}.

Definition byte (c : ascii) : Z := Z.of_N (N_of_ascii c).

(** The loop of [ParseUint] for base 10 and bit size 64: [n] is the value
    read so far.  A byte that is no digit is a syntax error; a value that
    leaves [uint64] is a range error, reported at once with the maximal
    value (the bytes after it are not looked at). *)
Fixpoint ParseUint_loop (s0 s : string) (n : Z) : Z * option NumError :=
  match s with
  | EmptyString => (n, None)
  | String c s' =>
      if (byte "0" <=? byte c) && (byte c <=? byte "9") then
        let d := byte c - byte "0" in
        if n >=? maxUint64 / 10 + 1 then (maxUint64, Some (rangeError "ParseUint" s0))
        else
          let n := wrapU (n * 10) in
          let n1 := wrapU (n + d) in
          if (n1 <? n) || (n1 >? maxUint64) then (maxUint64, Some (rangeError "ParseUint" s0))
          else ParseUint_loop s0 s' n1
      else (0, Some (syntaxError "ParseUint" s0))
  end.

Definition ParseUint (s : string) : Z * option NumError :=
  match s with
  | EmptyString => (0, Some (syntaxError "ParseUint" s))
  | _ => ParseUint_loop s s 0
  end.

(** [ParseInt(s, 10, 0)] *)
Definition ParseInt (s : string) : Z * option NumError :=
  match s with
  | EmptyString => (0, Some (syntaxError "ParseInt" s))
  | String c0 rest =>
      let s0 := s in
      let neg := Ascii.eqb c0 "-" in
      let s := if Ascii.eqb c0 "+" || Ascii.eqb c0 "-" then rest else s in
      let '(un, err) := ParseUint s in
      let syntax := match err with
                    | Some e => match Err_ e with ErrSyntax => true | ErrRange => false end
                    | None => false
                    end in
      if syntax then (0, Some (syntaxError "ParseInt" s0))
      else
        let cutoff := 2 ^ (intSize - 1) in
        if negb neg && (un >=? cutoff) then (cutoff - 1, Some (rangeError "ParseInt" s0))
        else if neg && (un >? cutoff) then (- cutoff, Some (rangeError "ParseInt" s0))
        else (if neg then wrap (- wrap un) else wrap un, None)
  end.

(** The fast path of [Atoi]: the digits after the sign, no range check
    (fewer than 19 bytes cannot leave [int]).  [ch -= '0'] is a byte
    subtraction, so a byte below '0' wraps to a value above 9. *)
Fixpoint Atoi_loop (s : string) (n : Z) : option Z :=
  match s with
  | EmptyString => Some n
  | String ch s' =>
      let ch := (byte ch - byte "0") mod 256 in
      if ch >? 9 then None else Atoi_loop s' (wrap (wrap (n * 10) + ch))
  end.

Definition Atoi (s : string) : Z * option NumError :=
  let sLen := Z.of_nat (String.length s) in
  if (0 <? sLen) && (sLen <? 19) then
    match s with
    | EmptyString => (0, Some (syntaxError "Atoi" s))
    | String c0 rest =>
        let s0 := s in
        let signed := Ascii.eqb c0 "-" || Ascii.eqb c0 "+" in
        let s := if signed then rest else s in
        if signed && (Z.of_nat (String.length s) <? 1) then (0, Some (syntaxError "Atoi" s0))
        else
          match Atoi_loop s 0 with
          | None => (0, Some (syntaxError "Atoi" s0))
          | Some n => (if Ascii.eqb c0 "-" then wrap (- n) else n, None)
          end
    end
  else
    let '(i64, err) := ParseInt s in
    (i64, (fun nerr => {| Func := "Atoi"; Num := Num nerr; Err_ := Err_ nerr |}) <$> err).

(** [strconv.Quote] on ASCII input: the double quote and the backslash are
    escaped, the printable bytes stand for themselves, the control bytes
    take their short escapes or [\x] and two hexadecimal digits.  A byte
    from 0x80 on starts a UTF-8 sequence, whose quoting depends on the
    Unicode tables: it is outside this model, and [Quote] answers [None]. *)
Definition lowerhex : string := "0123456789abcdef".

Definition hexdigit (n : Z) : string :=
  match String.get (Z.to_nat n) lowerhex with
  | Some c => String c EmptyString
  | None => EmptyString
  end.

Definition appendEscapedByte (c : ascii) : option string :=
  let r := byte c in
  if r >=? 128 then None
  else if (r =? 34) || (r =? 92) then Some (String "\" (String c EmptyString))
  else if (32 <=? r) && (r <? 127) then Some (String c EmptyString)
  else if r =? 7 then Some "\a"
  else if r =? 8 then Some "\b"
  else if r =? 12 then Some "\f"
  else if r =? 10 then Some "\n"
  else if r =? 13 then Some "\r"
  else if r =? 9 then Some "\t"
  else if r =? 11 then Some "\v"
  else Some ("\x" ++ hexdigit (Z.shiftr r 4) ++ hexdigit (Z.land r 15))%string.

Fixpoint quoteWith (s : string) : option string :=
  match s with
  | EmptyString => Some EmptyString
  | String c s' =>
      e ← appendEscapedByte c;
      q ← quoteWith s';
      Some (e ++ q)%string
  end.

Definition dquote : string := String (ascii_of_nat 34) EmptyString.

Definition Quote (s : string) : option string :=
  q ← quoteWith s; Some (dquote ++ q ++ dquote)%string.

Definition Err_Error (e : Err) : string :=
  match e with
  | ErrSyntax => "invalid syntax"
  | ErrRange => "value out of range"
  end.

(** The [Error] method of a [NumError]. *)
Definition NumError_Error (e : NumError) : option string :=
  q ← Quote (Num e);
  Some ("strconv." ++ Func e ++ ": parsing " ++ q ++ ": " ++ Err_Error (Err_ e))%string.

End strconv.

(** ** The record *)

(** A [float64], as its IEEE-754 bit pattern. *)
Definition float64 : Type := Z.

Record Employee := {
  ID : Z;
  Name : string;
  Position : string;
  Salary : float64
}.

(** The assignment [emp.ID = id]. *)
Definition set_ID (emp : Employee) (id : Z) : Employee :=
  {| ID := id; Name := Name emp; Position := Position emp; Salary := Salary emp |}.

(** ** net/http: what the handlers use of a request and of a response *)

Module http.

Definition StatusOK : Z := 200.
Definition StatusNoContent : Z := 204.
Definition StatusBadRequest : Z := 400.
Definition StatusNotFound : Z := 404.
Definition StatusUnsupportedMediaType : Z := 415.

(** [http.Header] and [url.Values]: a key maps to the values given for it,
    in the order of the request. *)
Definition Values : Type := gmap string (list string).

(** [Get]: the first value of the key, the empty string when there is
    none. *)
Definition Get (v : Values) (key : string) : string :=
  match v !! key with
  | Some (x :: _) => x
  | _ => EmptyString
  end.

(** The request as a handler reads it: the route variables of
    [mux.Vars], the header, the query of the URL and the body. *)
Record Request := {
  Vars : gmap string string;
  Header : Values;
  URL_Query : Values;
  Body : string
}.

(** What a handler has written when it returns.  A JSON body is kept as
    the value handed to the encoder; a first write without [WriteHeader]
    sends status 200. *)
Inductive Content :=
| Text (s : string)
| JSON_Employee (emp : Employee)
| JSON_List (results : list Employee)
| NoContent.

Record Response := {
  StatusCode : Z;
  ContentType : string;
  Written : Content
}.

Definition LF : string := String (ascii_of_nat 10) EmptyString.

(** [http.Error]: a plain-text reply, the message followed by a line
    feed. *)
Definition Error (error : string) (code : Z) : Response :=
  {| StatusCode := code;
     ContentType := "text/plain; charset=utf-8";
     Written := Text (error ++ LF) |}.

(** The reply of a handler that sets the content type and encodes [v]. *)
Definition Encode (v : Content) : Response :=
  {| StatusCode := StatusOK; ContentType := "application/json"; Written := v |}.

(** A handler either returns, having written a response, or panics; the
    server recovers a panic and drops the connection without a reply. *)
Inductive Served :=
| Responded (resp : Response)
| Panicked.

End http.
Import http.

(** ** The store *)

Record Store := {
  employees : gmap Z Employee;
  lastID : Z
}.

(** The state the program starts in. *)
Definition init : Store := {| employees := ∅; lastID := 0 |}.

(** [for _, emp := range employees]: every entry once, in some order. *)
Definition range_order (m : gmap Z Employee) (employeeList : list Employee) : Prop :=
  employeeList ≡ₚ (map_to_list m).*2.

(** The slice expression [l[low:high]] on a slice whose capacity is its
    length: it panics unless [0 <= low <= high <= len(l)]. *)
Definition slice {A : Type} (l : list A) (low high : Z) : option (list A) :=
  if (0 <=? low) && (low <=? high) && (high <=? Z.of_nat (length l))
  then Some (take (Z.to_nat (high - low)) (drop (Z.to_nat low) l))
  else None.

(** ** The handlers *)

(** The query parameter of [ListEmployees]: the error of [Atoi] is dropped,
    a value below 1 is replaced by the default. *)
Definition query_int (r : Request) (key : string) (dflt : Z) : Z :=
  let '(v, _) := strconv.Atoi (Get (URL_Query r) key) in
  if v <? 1 then dflt else v.

(** The page of [employeeList] that [ListEmployees] selects; [None] is the
    panic of the slice expression. *)
Definition paginate (page pageSize : Z) (employeeList : list Employee)
  : option (list Employee) :=
  let totalEmployees := Z.of_nat (length employeeList) in
  let startIdx := wrap (wrap (page - 1) * pageSize) in
  if startIdx >=? totalEmployees then Some []
  else
    let endIdx := wrap (startIdx + pageSize) in
    let endIdx := if endIdx >? totalEmployees then totalEmployees else endIdx in
    slice employeeList startIdx endIdx.

(** [ListEmployees] once the loop over the map has filled [employeeList]. *)
Definition ListEmployees_over (employeeList : list Employee) (r : Request) : Served :=
  let page := query_int r "page" 1 in
  let pageSize := query_int r "pageSize" 10 in
  match paginate page pageSize employeeList with
  | Some results => Responded (Encode (JSON_List results))
  | None => Panicked
  end.

Inductive ListEmployees (st : Store) (r : Request) : Served -> Prop :=
| ListEmployees_range employeeList :
    range_order (employees st) employeeList ->
    ListEmployees st r (ListEmployees_over employeeList r).

(** [mux.Vars(r)["id"]] *)
Definition idStr (r : Request) : string := default EmptyString (Vars r !! "id").

Definition GetEmployeeByID (st : Store) (r : Request) : Response :=
  let '(id, err) := strconv.Atoi (idStr r) in
  match err with
  | Some _ => Error "Invalid employee ID" StatusBadRequest
  | None =>
      match employees st !! id with
      | None => Error "Employee not found" StatusNotFound
      | Some emp => Encode (JSON_Employee emp)
      end
  end.

Definition DeleteEmployee (st : Store) (r : Request) : Store * Response :=
  let '(id, err) := strconv.Atoi (idStr r) in
  match err with
  | Some _ => (st, Error "Invalid employee ID" StatusBadRequest)
  | None =>
      match employees st !! id with
      | None => (st, Error "Employee not found" StatusNotFound)
      | Some _ =>
          ({| employees := delete id (employees st); lastID := lastID st |},
           {| StatusCode := StatusNoContent; ContentType := EmptyString; Written := NoContent |})
      end
  end.

Section Decoder.

(** [json.NewDecoder(r.Body).Decode(&emp)] into a zero [Employee]: the text
    of the error, or the record decoded.  The handlers are given for any
    decoder. *)
Variable Decode : string -> string + Employee.

Definition CreateEmployee (st : Store) (r : Request) : Store * Response :=
  match Decode (Body r) with
  | inl err => (st, Error err StatusBadRequest)
  | inr emp =>
      let lastID' := wrap (lastID st + 1) in
      let emp := set_ID emp lastID' in
      ({| employees := <[ID emp := emp]> (employees st); lastID := lastID' |},
       Encode (JSON_Employee emp))
  end.

Definition UpdateEmployee (st : Store) (r : Request) : Store * Response :=
  let '(id, err) := strconv.Atoi (idStr r) in
  match err with
  | Some _ => (st, Error "Invalid employee ID" StatusBadRequest)
  | None =>
      if negb (String.eqb (Get (Header r) "Content-Type") "application/json")
      then (st, Error "Invalid content-type. Expected 'application/json'" StatusUnsupportedMediaType)
      else
        match Decode (Body r) with
        | inl err => (st, Error err StatusBadRequest)
        | inr updatedEmp =>
            let updatedEmp := set_ID updatedEmp id in
            match employees st !! id with
            | None => (st, Error "Employee not found" StatusNotFound)
            | Some _ =>
                ({| employees := <[id := updatedEmp]> (employees st); lastID := lastID st |},
                 Encode (JSON_Employee updatedEmp))
            end
        end
  end.

(** The routes of [main] and the transition each request makes. *)
Inductive Route :=
| POST_employees
| GET_employees_id
| PUT_employees_id
| DELETE_employees_id
| GET_employees.

Inductive serve : Route -> Store -> Request -> Store -> Served -> Prop :=
| serve_Create st r :
    serve POST_employees st r (CreateEmployee st r).1 (Responded (CreateEmployee st r).2)
| serve_Get st r :
    serve GET_employees_id st r st (Responded (GetEmployeeByID st r))
| serve_Update st r :
    serve PUT_employees_id st r (UpdateEmployee st r).1 (Responded (UpdateEmployee st r).2)
| serve_Delete st r :
    serve DELETE_employees_id st r (DeleteEmployee st r).1 (Responded (DeleteEmployee st r).2)
| serve_List st r out :
    ListEmployees st r out -> serve GET_employees st r st out.

End Decoder.


(** ** Requests and stores used in the examples *)

Definition query (kvs : list (string * list string)) : Request :=
  {| Vars := ∅; Header := ∅; URL_Query := list_to_map kvs; Body := EmptyString |}.

Definition by_id (id : string) : Request :=
  {| Vars := {[ "id" := id ]}; Header := ∅; URL_Query := ∅; Body := EmptyString |}.

Definition put (id contentType body : string) : Request :=
  {| Vars := {[ "id" := id ]};
     Header := {[ "Content-Type" := [contentType] ]};
     URL_Query := ∅;
     Body := body |}.

Definition post (body : string) : Request :=
  {| Vars := ∅; Header := {[ "Content-Type" := ["application/json"] ]};
     URL_Query := ∅; Body := body |}.

(** The records of [TestListEmployeesPagination]: identifiers 1 to [n]. *)
Definition staff (n : nat) : list Employee :=
  (fun i => {| ID := i; Name := "Employee"; Position := "Position"; Salary := 0 |})
    <$> seqZ 1 (Z.of_nat n).

(** The sub-sequence [[start, end_)] of a list. *)
Definition subsequence {A : Type} (l : list A) (start end_ : Z) : list A :=
  take (Z.to_nat (end_ - start)) (drop (Z.to_nat start) l).

(** The page as section 4.4 of the specification words it, over the
    mathematical integers. *)
Definition page_slice {A : Type} (page pageSize : Z) (snapshot : list A) : list A :=
  let total := Z.of_nat (length snapshot) in
  let start := (page - 1) * pageSize in
  if start >=? total then []
  else subsequence snapshot start (Z.min (start + pageSize) total).

(** The identifier a reply of [CreateEmployee] carries. *)
Definition assigned_id (resp : Response) : option Z :=
  match Written resp with
  | JSON_Employee emp => Some (ID emp)
  | _ => None
  end.

Section Runs.

Variable Decode : string -> string + Employee.

(** [CreateEmployee] on each request in turn. *)
Fixpoint creates (st : Store) (rs : list Request) : Store * list Response :=
  match rs with
  | [] => (st, [])
  | r :: rs =>
      let '(st1, resp) := CreateEmployee Decode st r in
      let '(st2, resps) := creates st1 rs in
      (st2, resp :: resps)
  end.

(** The server on a sequence of requests, one transition after the other. *)
Inductive run : Store -> list (Route * Request) -> Store -> list Served -> Prop :=
| run_nil st : run st [] st []
| run_cons st route r st1 out reqs st2 outs :
    serve Decode route st r st1 out ->
    run st1 reqs st2 outs ->
    run st ((route, r) :: reqs) st2 (out :: outs).

End Runs.

(** Every record is stored under its own identifier. *)
Definition keyed_by_ID (st : Store) : Prop :=
  forall id emp, employees st !! id = Some emp -> ID emp = id.

(** A decoder for the examples: a body is the name of the record, the empty
    body is malformed. *)
Definition decode_name (body : string) : string + Employee :=
  match body with
  | EmptyString => inl "EOF"
  | _ => inr {| ID := 99; Name := body; Position := "Position"; Salary := 0 |}
  end.

Definition alice : Employee :=
  {| ID := 1; Name := "Alice Johnson"; Position := "Software Engineer"; Salary := 85000 |}.
Definition bob : Employee :=
  {| ID := 2; Name := "John Doe"; Position := "Manager"; Salary := 120000 |}.
Definition two : Store :=
  {| employees := <[1 := alice]> (<[2 := bob]> ∅); lastID := 2 |}.

Definition put_jane : Request := put "1" "application/json" "Jane Doe".
Definition put_absent : Request := put "7" "application/json" "Jane Doe".
Definition put_charset : Request := put "7" "application/json; charset=utf-8" "Jane Doe".
Definition three_posts : list Request := [post "Ann"; post "Ben"; post "Cyd"].


(** ** Decimal numerals *)

(** The reading of a decimal numeral over the mathematical integers, the
    reference [Atoi] is compared with: an optional sign, then one digit or
    more. *)
Definition is_digit (c : ascii) : bool :=
  (strconv.byte "0" <=? strconv.byte c) && (strconv.byte c <=? strconv.byte "9").

Fixpoint digits_value (s : string) (acc : Z) : option Z :=
  match s with
  | EmptyString => Some acc
  | String c s' =>
      if is_digit c then digits_value s' (acc * 10 + (strconv.byte c - strconv.byte "0"))
      else None
  end.

Definition decimal_value (s : string) : option Z :=
  match s with
  | EmptyString => None
  | String c rest =>
      if Ascii.eqb c "-" || Ascii.eqb c "+" then
        match rest with
        | EmptyString => None
        | _ => (fun v => if Ascii.eqb c "-" then - v else v) <$> digits_value rest 0
        end
      else digits_value s 0
  end.

(** ** fmt: the verb [%d] on an [int] *)

Module fmt.

(** The digit of value [u] below 10. *)
Definition digit (u : Z) : ascii := ascii_of_N (Z.to_N (strconv.byte "0" + u)).

(** The base-10 loop of [fmtInteger], which fills the buffer from its end:
    [for u >= 10 { next := u / 10; buf[i] = '0' + u - next*10; u = next }],
    then the last digit.  [steps] bounds the iterations; a [uint64] has at
    most 20 digits. *)
Fixpoint fmtInteger_loop (steps : nat) (u : Z) (buf : string) : string :=
  match steps with
  | O => buf
  | S steps' =>
      if u >=? 10 then
        let next := u / 10 in
        fmtInteger_loop steps' next (String (digit (u - next * 10)) buf)
      else String (digit u) buf
  end.

(** [fmt.Sprintf("%d", v)]: the sign is taken off, the magnitude goes
    through the loop as a [uint64], the minus sign is put in front. *)
Definition Sprintf_d (v : Z) : string :=
  let negative := v <? 0 in
  let u := wrapU (if negative then - v else v) in
  let buf := fmtInteger_loop 20 u EmptyString in
  if negative then String "-" buf else buf.

End fmt.

(** ** The helper of the tests *)


(** Every key of the map is an identifier the counter has issued. *)
Definition keys_issued (st : Store) : Prop :=
  forall id, is_Some (employees st !! id) -> 1 <= id <= lastID st.

(** The requests of the tests: the path is written with [%d]. *)
Definition get_id (id : Z) : Request := by_id (fmt.Sprintf_d id).
Definition put_id (id : Z) (body : string) : Request :=
  put (fmt.Sprintf_d id) "application/json" body.


Definition page_1_of_1 : Request := query [("page", ["1"]); ("pageSize", ["1"])].

(** * Properties *)

(** ** Machine integers *)

Lemma wrap_in_range z : in_range z -> wrap z = z.
Proof.
  unfold in_range, minInt, maxInt, wrap. intros Hz.
  rewrite Z.mod_small; lia.
Qed.

Lemma wrap_range z : in_range (wrap z).
Proof.
  unfold in_range, minInt, maxInt, wrap.
  pose proof (Z.mod_pos_bound (z + 2 ^ 63) (2 ^ 64) ltac:(lia)). lia.
Qed.

(** ** Pagination *)

Lemma slice_in_bounds {A} (l : list A) low high :
  0 <= low <= high -> high <= Z.of_nat (length l) ->
  slice l low high = Some (subsequence l low high).
Proof.
  intros [Hl Hh] Hlen. unfold slice.
  assert (Hb : (0 <=? low) && (low <=? high) && (high <=? Z.of_nat (length l)) = true)
    by (rewrite !andb_true_iff, !Z.leb_le; auto).
  rewrite Hb. reflexivity.
Qed.

Lemma slice_negative {A} (l : list A) low high : low < 0 -> slice l low high = None.
Proof.
  intros Hl. unfold slice.
  destruct (Z.leb_spec 0 low) as [H | H]; [lia | reflexivity].
Qed.

(** While [page * pageSize] stays within [int], the handler selects the page
    of section 4.4. *)
Lemma paginate_in_range page pageSize (employeeList : list Employee) :
  1 <= page -> 1 <= pageSize -> page * pageSize <= maxInt ->
  paginate page pageSize employeeList = Some (page_slice page pageSize employeeList).
Proof.
  intros Hp Hs Hmax. unfold paginate, page_slice.
  assert (Hpage : in_range (page - 1)) by (unfold in_range, minInt, maxInt in *; nia).
  assert (Hstart : in_range ((page - 1) * pageSize))
    by (unfold in_range, minInt, maxInt in *; nia).
  rewrite (wrap_in_range _ Hpage), (wrap_in_range _ Hstart).
  set (start := (page - 1) * pageSize) in *.
  set (total := Z.of_nat (length employeeList)).
  destruct (Z.geb_spec start total) as [Hge | Hlt]; [reflexivity |].
  assert (Hend : in_range (start + pageSize))
    by (unfold in_range, minInt, maxInt, start in *; nia).
  rewrite (wrap_in_range _ Hend).
  assert (H0 : 0 <= start) by (unfold start; nia).
  destruct (Z.gtb_spec (start + pageSize) total) as [Hgt | Hle].
  - rewrite Z.min_r by lia. apply slice_in_bounds; fold total; lia.
  - rewrite Z.min_l by lia. apply slice_in_bounds; fold total; lia.
Qed.

Lemma paginate_test_cases :
  length <$> paginate 1 10 (staff 25) = Some 10%nat /\
  length <$> paginate 2 10 (staff 25) = Some 10%nat /\
  length <$> paginate 3 10 (staff 25) = Some 5%nat /\
  paginate 1 25 (staff 25) = Some (staff 25) /\
  paginate 4 10 (staff 25) = Some [].
Proof. vm_compute. repeat split. Qed.

(** A start index that wraps below zero makes the slice expression panic,
    whatever the list. *)
Lemma paginate_negative_start page pageSize (employeeList : list Employee) :
  wrap (wrap (page - 1) * pageSize) < 0 ->
  paginate page pageSize employeeList = None.
Proof.
  intros Hneg. unfold paginate.
  destruct (Z.geb_spec (wrap (wrap (page - 1) * pageSize))
              (Z.of_nat (length employeeList))) as [Hge | Hlt]; [lia |].
  apply slice_negative, Hneg.
Qed.

Lemma ListEmployees_total st r : exists out, ListEmployees st r out.
Proof.
  exists (ListEmployees_over (map_to_list (employees st)).*2 r).
  constructor. unfold range_order. reflexivity.
Qed.

Lemma range_order_two :
  range_order (employees two) [alice; bob] /\ range_order (employees two) [bob; alice].
Proof.
  unfold range_order.
  assert (H : (map_to_list (employees two)).*2 ≡ₚ [alice; bob]).
  { unfold two; simpl.
    rewrite map_to_list_insert by (by rewrite lookup_insert_ne, lookup_empty).
    rewrite map_to_list_insert by apply lookup_empty.
    rewrite map_to_list_empty. reflexivity. }
  split.
  - by rewrite H.
  - rewrite H. apply Permutation_swap.
Qed.

(** C8: the order of a list reply is not determined by the store.  In
    the store holding the records 1 and 2, one and the same request for the
    list is answered by the two records in either order: the loop over the
    map leaves the order open and nothing sorts the slice. *)
Theorem list_order_not_determined :
  ListEmployees two (query []) (Responded (Encode (JSON_List [alice; bob]))) /\
  ListEmployees two (query []) (Responded (Encode (JSON_List [bob; alice]))) /\
  Responded (Encode (JSON_List [alice; bob])) <> Responded (Encode (JSON_List [bob; alice])).
Proof.
  destruct range_order_two as [H12 H21].
  split; [| split].
  - exact (ListEmployees_range two (query []) [alice; bob] H12).
  - exact (ListEmployees_range two (query []) [bob; alice] H21).
  - discriminate.
Qed.

(** C1: the page arithmetic wraps.  For page 1844674407370955162 and
    page size 10 over the 25 records of the test, the start index of
    section 4.4 is far beyond the total, so the page is empty there; the
    handler computes the start index -6 and the slice expression panics.
    For page 4294967297 and page size 4294967296 the product wraps to 0 and
    the handler answers with all 25 records where section 4.4 has none. *)
Theorem pagination_wraps :
  (1 <= 1844674407370955162 /\ 1 <= 10 /\
   page_slice 1844674407370955162 10 (staff 25) = [] /\
   wrap (wrap (1844674407370955162 - 1) * 10) = -6 /\
   paginate 1844674407370955162 10 (staff 25) = None /\
   ListEmployees_over (staff 25)
     (query [("page", ["1844674407370955162"]); ("pageSize", ["10"])]) = Panicked) /\
  (page_slice 4294967297 4294967296 (staff 25) = [] /\
   paginate 4294967297 4294967296 (staff 25) = Some (staff 25)).
Proof. vm_compute. repeat split; discriminate. Qed.

(** C7: a page parameter that leaves [int] is not replaced by the
    default.  [Atoi] reports the range error together with the largest
    [int]; the handler drops the error and keeps the value, the start index
    wraps to -20, and on every store the handler panics instead of
    answering 200. *)
Theorem list_page_out_of_range_panics :
  let r := query [("page", ["99999999999999999999"])] in
  strconv.Atoi (Get (URL_Query r) "page")
    = (maxInt, Some (strconv.rangeError "Atoi" "99999999999999999999")) /\
  query_int r "page" 1 = maxInt /\
  query_int r "pageSize" 10 = 10 /\
  forall st : Store,
    (exists out, ListEmployees st r out) /\
    (forall out, ListEmployees st r out -> out = Panicked).
Proof.
  intros r.
  assert (Hpage : query_int r "page" 1 = maxInt) by (vm_compute; reflexivity).
  assert (Hsize : query_int r "pageSize" 10 = 10) by (vm_compute; reflexivity).
  split; [vm_compute; reflexivity |].
  split; [exact Hpage |]. split; [exact Hsize |].
  intros st. split; [apply ListEmployees_total |].
  intros out Hout. destruct Hout as [l _].
  unfold ListEmployees_over. rewrite Hpage, Hsize.
  rewrite paginate_negative_start; [reflexivity | vm_compute; reflexivity].
Qed.

(** ** Query parameters *)

Lemma ParseInt_error s v e :
  strconv.ParseInt s = (v, Some e) ->
  (strconv.Err_ e = strconv.ErrSyntax /\ v = 0) \/
  (strconv.Err_ e = strconv.ErrRange /\ (v = maxInt \/ v = minInt)).
Proof.
  unfold strconv.ParseInt. destruct s as [| c0 rest]; [intros [= <- <-]; by left |].
  destruct (strconv.ParseUint _) as [un err].
  repeat case_match; intros [= <- <-]; (by left) || (right; split; [done |]);
    vm_compute; auto.
Qed.

Lemma Atoi_error s v e :
  strconv.Atoi s = (v, Some e) ->
  (strconv.Err_ e = strconv.ErrSyntax /\ v = 0) \/
  (strconv.Err_ e = strconv.ErrRange /\ (v = maxInt \/ v = minInt)).
Proof.
  unfold strconv.Atoi. case_match.
  - repeat case_match; intros [= <- <-]; by left.
  - destruct (strconv.ParseInt s) as [i64 [nerr |]] eqn:HP; [| discriminate].
    simpl. intros [= <- <-]. simpl. exact (ParseInt_error _ _ _ HP).
Qed.

(** A parameter that is missing, that is no number, or that is below 1
    gives the default. *)
Lemma query_int_missing r key dflt :
  URL_Query r !! key = None -> query_int r key dflt = dflt.
Proof.
  intros Hnone. unfold query_int, Get. rewrite Hnone. reflexivity.
Qed.

Lemma query_int_syntax r key dflt v e :
  strconv.Atoi (Get (URL_Query r) key) = (v, Some e) ->
  strconv.Err_ e = strconv.ErrSyntax ->
  query_int r key dflt = dflt.
Proof.
  intros HA He. unfold query_int. rewrite HA.
  destruct (Atoi_error _ _ _ HA) as [[_ ->] | [Hr _]]; [reflexivity | congruence].
Qed.

Lemma query_int_below_1 r key dflt v err :
  strconv.Atoi (Get (URL_Query r) key) = (v, err) -> v < 1 ->
  query_int r key dflt = dflt.
Proof.
  intros HA Hv. unfold query_int. rewrite HA.
  destruct (Z.ltb_spec v 1); [reflexivity | lia].
Qed.

Lemma query_int_ge_1 r key dflt : 1 <= dflt -> 1 <= query_int r key dflt.
Proof.
  intros Hd. unfold query_int. destruct (strconv.Atoi _) as [v err].
  destruct (Z.ltb_spec v 1); lia.
Qed.

(** While the page arithmetic stays within [int], every run of the handler
    answers 200 with the page of the list it iterated. *)
Lemma ListEmployees_in_range st r out :
  query_int r "page" 1 * query_int r "pageSize" 10 <= maxInt ->
  ListEmployees st r out ->
  exists employeeList,
    range_order (employees st) employeeList /\
    out = Responded (Encode (JSON_List
            (page_slice (query_int r "page" 1) (query_int r "pageSize" 10) employeeList))).
Proof.
  intros Hmax [l Hl]. exists l. split; [exact Hl |].
  unfold ListEmployees_over.
  rewrite paginate_in_range; auto using query_int_ge_1 with lia.
Qed.

(** ** The handlers on the store *)

Lemma set_ID_fields emp id :
  ID (set_ID emp id) = id /\ Name (set_ID emp id) = Name emp /\
  Position (set_ID emp id) = Position emp /\ Salary (set_ID emp id) = Salary emp.
Proof. by destruct emp. Qed.

Lemma GetEmployeeByID_found st r id emp :
  strconv.Atoi (idStr r) = (id, None) -> employees st !! id = Some emp ->
  GetEmployeeByID st r = Encode (JSON_Employee emp).
Proof. intros HA Hm. unfold GetEmployeeByID. by rewrite HA, Hm. Qed.

Lemma GetEmployeeByID_absent st r id :
  strconv.Atoi (idStr r) = (id, None) -> employees st !! id = None ->
  GetEmployeeByID st r = Error "Employee not found" StatusNotFound.
Proof. intros HA Hm. unfold GetEmployeeByID. by rewrite HA, Hm. Qed.

Section Handlers.

Variable Decode : string -> string + Employee.

(** C2: an update that succeeds stores the payload under the
    identifier of the path and with that identifier, whatever identifier
    the payload names; reading the identifier afterwards returns the new
    name, position and salary with the identifier of the path. *)
Theorem update_keeps_path_id st r st' resp :
  UpdateEmployee Decode st r = (st', resp) ->
  StatusCode resp = StatusOK ->
  exists id fields,
    strconv.Atoi (idStr r) = (id, None) /\
    Decode (Body r) = inr fields /\
    exists stored,
      employees st' !! id = Some stored /\
      ID stored = id /\ Name stored = Name fields /\
      Position stored = Position fields /\ Salary stored = Salary fields /\
      resp = Encode (JSON_Employee stored) /\
      forall r', strconv.Atoi (idStr r') = (id, None) ->
        GetEmployeeByID st' r' = Encode (JSON_Employee stored).
Proof.
  unfold UpdateEmployee.
  destruct (strconv.Atoi (idStr r)) as [id [e |]]; [intros [= <- <-]; discriminate |].
  destruct (negb _); [intros [= <- <-]; discriminate |].
  destruct (Decode (Body r)) as [err | fields]; [intros [= <- <-]; discriminate |].
  destruct (employees st !! id) as [old |] eqn:Hold; [| intros [= <- <-]; discriminate].
  intros [= <- <-] _. exists id, fields. do 2 (split; [reflexivity |]).
  exists (set_ID fields id).
  assert (Hst : (<[id := set_ID fields id]> (employees st)) !! id = Some (set_ID fields id))
    by apply lookup_insert_eq.
  destruct (set_ID_fields fields id) as (Hi & Hn & Hp & Hs).
  repeat (split; [assumption || reflexivity |]).
  intros r' HA. by apply GetEmployeeByID_found with id.
Qed.

(** C4: an update of an identifier the store does not hold leaves the
    map and the counter as they were, and once the content type and the
    payload are accepted the reply is 404, Employee not found. *)
Theorem update_absent_not_found st r id :
  strconv.Atoi (idStr r) = (id, None) ->
  employees st !! id = None ->
  (UpdateEmployee Decode st r).1 = st /\
  forall fields,
    Get (Header r) "Content-Type" = "application/json" ->
    Decode (Body r) = inr fields ->
    UpdateEmployee Decode st r = (st, Error "Employee not found" StatusNotFound).
Proof.
  intros HA Hm. unfold UpdateEmployee. rewrite HA, Hm. split.
  - destruct (negb _); [reflexivity |]. by destruct (Decode (Body r)).
  - intros fields -> ->. reflexivity.
Qed.

(** C5: when a create replies with a record of identifier [id], the
    payload was decoded, and reading [id] in the store the create leaves
    returns 200 with that record: the name, the position and the salary of
    the payload under the identifier [id]. *)
Theorem get_after_create st r st' resp id :
  CreateEmployee Decode st r = (st', resp) ->
  assigned_id resp = Some id ->
  exists fields created,
    Decode (Body r) = inr fields /\
    resp = Encode (JSON_Employee created) /\
    ID created = id /\ Name created = Name fields /\
    Position created = Position fields /\ Salary created = Salary fields /\
    forall r', strconv.Atoi (idStr r') = (id, None) ->
      GetEmployeeByID st' r' = Encode (JSON_Employee created).
Proof.
  unfold CreateEmployee.
  destruct (Decode (Body r)) as [err | fields]; [intros [= <- <-]; discriminate |].
  intros [= <- <-]. cbn. intros [= <-].
  exists fields, (set_ID fields (wrap (lastID st + 1))).
  repeat (split; [reflexivity || by destruct fields |]).
  intros r' HA. apply GetEmployeeByID_found with (wrap (lastID st + 1)); [exact HA |].
  cbn. apply lookup_insert_eq.
Qed.

(** C10: on an update whose path identifier parses, a content type
    other than the exact text application/json is answered 415 and the
    store is left alone, whether or not the identifier is held and
    whatever the body is. *)
Theorem update_content_type_first st r id :
  strconv.Atoi (idStr r) = (id, None) ->
  Get (Header r) "Content-Type" <> "application/json" ->
  UpdateEmployee Decode st r =
    (st, Error "Invalid content-type. Expected 'application/json'"
           StatusUnsupportedMediaType).
Proof.
  intros HA Hct. unfold UpdateEmployee. rewrite HA.
  destruct (String.eqb_spec (Get (Header r) "Content-Type") "application/json");
    [contradiction | reflexivity].
Qed.

End Handlers.

(** C6: deleting an identifier the store holds answers 204 without a
    body and removes the record, so that reading the identifier afterwards
    answers 404; deleting an identifier the store does not hold answers 404
    and changes nothing. *)
Theorem delete_then_get st r id :
  strconv.Atoi (idStr r) = (id, None) ->
  (is_Some (employees st !! id) ->
     DeleteEmployee st r =
       ({| employees := delete id (employees st); lastID := lastID st |},
        {| StatusCode := StatusNoContent; ContentType := EmptyString; Written := NoContent |}) /\
     forall r', strconv.Atoi (idStr r') = (id, None) ->
       GetEmployeeByID (DeleteEmployee st r).1 r' = Error "Employee not found" StatusNotFound) /\
  (employees st !! id = None ->
     DeleteEmployee st r = (st, Error "Employee not found" StatusNotFound)).
Proof.
  intros HA. unfold DeleteEmployee. rewrite HA. split.
  - intros [emp ->]. split; [reflexivity |].
    intros r' HA'. apply GetEmployeeByID_absent with id; [exact HA' |].
    cbn. apply lookup_delete_eq.
  - intros ->. reflexivity.
Qed.

(** ** Identifiers *)

Lemma StronglySorted_seqZ m n : StronglySorted Z.lt (seqZ m n).
Proof.
  destruct (Z.le_gt_cases n 0) as [Hn | Hn]; [rewrite seqZ_nil by lia; constructor |].
  rewrite <- (Z2Nat.id n) by lia. generalize (Z.to_nat n) as k. clear n Hn.
  intros k. revert m. induction k as [| k IH]; intros m.
  - rewrite seqZ_nil by lia. constructor.
  - rewrite seqZ_cons by lia. constructor.
    + replace (Z.pred (Z.of_nat (S k))) with (Z.of_nat k) by lia. apply IH.
    + apply Forall_seqZ. lia.
Qed.

Section Identifiers.

Variable Decode : string -> string + Employee.

(** One create: the counter goes up by one and its new value is the
    identifier of the record. *)
Lemma CreateEmployee_next st r fields :
  Decode (Body r) = inr fields ->
  in_range (lastID st) -> lastID st < maxInt ->
  CreateEmployee Decode st r =
    ({| employees := <[lastID st + 1 := set_ID fields (lastID st + 1)]> (employees st);
        lastID := lastID st + 1 |},
     Encode (JSON_Employee (set_ID fields (lastID st + 1)))).
Proof.
  intros HD [Hlo _] Hhi. unfold CreateEmployee. rewrite HD.
  rewrite wrap_in_range by (unfold in_range, minInt, maxInt in *; lia).
  reflexivity.
Qed.

Lemma creates_spec rs : forall st,
  Forall (fun r => exists fields, Decode (Body r) = inr fields) rs ->
  in_range (lastID st) ->
  lastID st + Z.of_nat (length rs) <= maxInt ->
  length (creates Decode st rs).2 = length rs /\
  Forall (fun resp => StatusCode resp = StatusOK) (creates Decode st rs).2 /\
  assigned_id <$> (creates Decode st rs).2
    = Some <$> seqZ (lastID st + 1) (Z.of_nat (length rs)) /\
  lastID (creates Decode st rs).1 = lastID st + Z.of_nat (length rs).
Proof.
  induction rs as [| r rs IH]; intros st Hdec Hin Hmax.
  - cbn. repeat split; [constructor | lia].
  - apply Forall_cons in Hdec as [[fields HD] Hdec].
    cbn [creates length] in *.
    rewrite (CreateEmployee_next st r fields HD Hin) by lia.
    set (st1 := {| employees := _; lastID := lastID st + 1 |}).
    destruct (IH st1 Hdec) as (Hlen & Hok & Hids & Hlast).
    { unfold in_range, minInt, maxInt in *. cbn. lia. }
    { cbn. lia. }
    destruct (creates Decode st1 rs) as [st2 resps]. cbn in *.
    repeat split.
    + by rewrite Hlen.
    + constructor; [reflexivity | exact Hok].
    + rewrite seqZ_cons by lia. cbn. rewrite Hids. do 3 f_equal; lia.
    + lia.
Qed.

Lemma serve_lastID route st r st' out :
  serve Decode route st r st' out ->
  lastID st' = lastID st \/
  (route = POST_employees /\ lastID st' = wrap (lastID st + 1)).
Proof.
  intros [st0 r0 | st0 r0 | st0 r0 | st0 r0 | st0 r0 out0 _]; try by left.
  - unfold CreateEmployee. destruct (Decode (Body r0)); cbn; auto.
  - unfold UpdateEmployee. repeat case_match; cbn; auto.
  - unfold DeleteEmployee. repeat case_match; cbn; auto.
Qed.

(** C3: from a store whose counter has room for them, [N] creates with
    decodable payloads all answer 200, the identifiers they assign are the
    [N] integers that follow the counter (each the counter plus one at its
    turn), hence distinct and strictly increasing, and the counter ends
    [N] higher; and no request of any kind served below the largest [int]
    lowers the counter. *)
Theorem creates_assign_increasing_ids st rs :
  Forall (fun r => exists fields, Decode (Body r) = inr fields) rs ->
  in_range (lastID st) ->
  lastID st + Z.of_nat (length rs) <= maxInt ->
  (exists ids : list Z,
     length (creates Decode st rs).2 = length rs /\
     Forall (fun resp => StatusCode resp = StatusOK) (creates Decode st rs).2 /\
     assigned_id <$> (creates Decode st rs).2 = Some <$> ids /\
     ids = seqZ (lastID st + 1) (Z.of_nat (length rs)) /\
     NoDup ids /\ StronglySorted Z.lt ids /\
     lastID (creates Decode st rs).1 = lastID st + Z.of_nat (length rs)) /\
  (forall route st1 r st2 out,
     serve Decode route st1 r st2 out ->
     lastID st1 < maxInt -> lastID st1 <= lastID st2).
Proof.
  intros Hdec Hin Hmax. split.
  - destruct (creates_spec rs st Hdec Hin Hmax) as (Hlen & Hok & Hids & Hlast).
    exists (seqZ (lastID st + 1) (Z.of_nat (length rs))).
    repeat split; auto using NoDup_seqZ, StronglySorted_seqZ.
  - intros route st1 r st2 out Hserve Hlt.
    destruct (serve_lastID _ _ _ _ _ Hserve) as [-> | [_ ->]]; [lia |].
    destruct (Z.le_gt_cases minInt (lastID st1 + 1)) as [Hlo | Hlo].
    + rewrite wrap_in_range; [lia |]. unfold in_range. lia.
    + pose proof (wrap_range (lastID st1 + 1)) as [Hw _]. lia.
Qed.

(** C9, as the handlers have it: a request that is refused leaves the
    store as it was, and its reply is one of four.  A path identifier that
    does not parse: 400 with the fixed text Invalid employee ID.  A content
    type other than application/json on an update: 415 with a fixed text.
    A payload the decoder rejects, on a create or an update: 400 with the
    text of the decoder's error.  An identifier the store does not hold:
    404 with the fixed text Employee not found. *)
Theorem refused_replies route st r st' resp :
  serve Decode route st r st' (Responded resp) ->
  StatusCode resp <> StatusOK ->
  StatusCode resp <> StatusNoContent ->
  st' = st /\
  ((route <> POST_employees /\
    (exists v e, strconv.Atoi (idStr r) = (v, Some e)) /\
    resp = Error "Invalid employee ID" StatusBadRequest) \/
   (route = PUT_employees_id /\
    Get (Header r) "Content-Type" <> "application/json" /\
    resp = Error "Invalid content-type. Expected 'application/json'"
             StatusUnsupportedMediaType) \/
   ((route = POST_employees \/ route = PUT_employees_id) /\
    exists err, Decode (Body r) = inl err /\ resp = Error err StatusBadRequest) \/
   (route <> POST_employees /\
    exists id, strconv.Atoi (idStr r) = (id, None) /\
               employees st !! id = None /\
               resp = Error "Employee not found" StatusNotFound)).
Proof.
  intros Hserve H200 H204.
  inversion Hserve as [st0 r0 | st0 r0 | st0 r0 | st0 r0 | st0 r0 out0 Hlist]; subst.
  - revert H200 H204. unfold CreateEmployee.
    destruct (Decode (Body r)) as [err | emp] eqn:HD; cbn; intros H200 H204; [| done].
    split; [reflexivity |]. right; right; left. eauto.
  - revert H200 H204. unfold GetEmployeeByID.
    destruct (strconv.Atoi (idStr r)) as [id [e |]] eqn:HA; cbn.
    + intros _ _. split; [reflexivity |]. left. eauto.
    + destruct (employees st' !! id) eqn:Hm; cbn; intros H200 H204; [done |].
      split; [reflexivity |]. do 3 right. eauto.
  - revert H200 H204. unfold UpdateEmployee.
    destruct (strconv.Atoi (idStr r)) as [id [e |]] eqn:HA; cbn.
    + intros _ _. split; [reflexivity |]. left. eauto.
    + destruct (String.eqb_spec (Get (Header r) "Content-Type") "application/json")
        as [Hct | Hct]; cbn.
      * destruct (Decode (Body r)) as [err | emp] eqn:HD; cbn.
        -- intros _ _. split; [reflexivity |]. right; right; left. eauto.
        -- destruct (employees st !! id) eqn:Hm; cbn; intros H200 H204; [done |].
           split; [reflexivity |]. do 3 right. eauto.
      * intros _ _. split; [reflexivity |]. right; left. auto.
  - revert H200 H204. unfold DeleteEmployee.
    destruct (strconv.Atoi (idStr r)) as [id [e |]] eqn:HA; cbn.
    + intros _ _. split; [reflexivity |]. left. eauto.
    + destruct (employees st !! id) eqn:Hm; cbn; intros H200 H204; [done |].
      split; [reflexivity |]. do 3 right. eauto.
  - exfalso. inversion Hlist as [l Hl Hout]. unfold ListEmployees_over in Hout.
    destruct (paginate _ _ l); [| discriminate].
    injection Hout as <-. by apply H200.
Qed.

End Identifiers.

Section Invariants.

Variable Decode : string -> string + Employee.

(** From the initial store the counter counts the creates: it stays between
    0 and the number of requests served, so the range conditions of the
    statements above hold in every run shorter than the largest [int]. *)
Lemma run_lastID st reqs st' outs :
  run Decode st reqs st' outs ->
  in_range (lastID st) ->
  lastID st + Z.of_nat (length reqs) <= maxInt ->
  lastID st <= lastID st' <= lastID st + Z.of_nat (length reqs).
Proof.
  induction 1 as [st | st route r st1 out reqs st2 outs Hserve Hrun IH];
    intros Hin Hmax; [cbn; lia |].
  cbn [length] in Hmax.
  assert (Hstep : lastID st1 = lastID st \/ lastID st1 = lastID st + 1).
  { destruct (serve_lastID _ _ _ _ _ _ Hserve) as [-> | [_ ->]]; [by left | right].
    apply wrap_in_range. unfold in_range, minInt, maxInt in *. lia. }
  assert (Hin1 : in_range (lastID st1))
    by (unfold in_range, minInt, maxInt in *; lia).
  specialize (IH Hin1). cbn [length]. lia.
Qed.

Lemma run_init_lastID reqs st' outs :
  run Decode init reqs st' outs ->
  Z.of_nat (length reqs) <= maxInt ->
  0 <= lastID st' <= Z.of_nat (length reqs).
Proof.
  intros Hrun Hmax. apply run_lastID in Hrun; cbn in *; [lia | | lia].
  unfold in_range, minInt, maxInt. lia.
Qed.

(** No handler stores a record under a key other than its identifier. *)
Lemma serve_keyed_by_ID route st r st' out :
  serve Decode route st r st' out -> keyed_by_ID st -> keyed_by_ID st'.
Proof.
  intros [st0 r0 | st0 r0 | st0 r0 | st0 r0 | st0 r0 out0 _] Hinv; try exact Hinv.
  - unfold CreateEmployee. destruct (Decode (Body r0)) as [err | emp]; [exact Hinv |].
    intros id rec. cbn. rewrite lookup_insert. case_decide as Hid.
    + intros [= <-]. exact Hid.
    + apply Hinv.
  - unfold UpdateEmployee.
    destruct (strconv.Atoi (idStr r0)) as [id0 [nerr |]]; [exact Hinv |].
    destruct (negb _); [exact Hinv |].
    destruct (Decode (Body r0)) as [err | emp]; [exact Hinv |].
    destruct (employees st0 !! id0); [| exact Hinv].
    intros id rec. cbn. rewrite lookup_insert. case_decide as Hid.
    + intros [= <-]. exact Hid.
    + apply Hinv.
  - unfold DeleteEmployee.
    destruct (strconv.Atoi (idStr r0)) as [id0 [nerr |]]; [exact Hinv |].
    destruct (employees st0 !! id0); [| exact Hinv].
    intros id rec. cbn. rewrite lookup_delete. case_decide; [discriminate | apply Hinv].
Qed.

Lemma init_keyed_by_ID : keyed_by_ID init.
Proof. intros id emp. cbn. by rewrite lookup_empty. Qed.

End Invariants.

(** C9, as the specification words it, fails on a malformed identifier: the
    reply to a read of the identifier abc is the fixed text, not the text
    of the error [Atoi] returned. *)
Lemma invalid_id_reply_is_not_the_parse_error :
  exists e,
    strconv.Atoi (idStr (by_id "abc")) = (0, Some e) /\
    strconv.NumError_Error e
      = Some ("strconv.Atoi: parsing " ++ strconv.dquote ++ "abc" ++ strconv.dquote
              ++ ": invalid syntax")%string /\
    GetEmployeeByID init (by_id "abc") = Error "Invalid employee ID" StatusBadRequest /\
    forall text, strconv.NumError_Error e = Some text ->
      Written (GetEmployeeByID init (by_id "abc")) <> Text (text ++ LF).
Proof.
  exists (strconv.syntaxError "Atoi" "abc").
  split; [vm_compute; reflexivity |]. split; [vm_compute; reflexivity |].
  split; [vm_compute; reflexivity |].
  intros text Htext. vm_compute in Htext. injection Htext as <-.
  vm_compute. discriminate.
Qed.

(** ** The theorems at concrete requests *)

Lemma update_keeps_path_id_witness :
  decode_name (Body put_jane) = inr {| ID := 99; Name := "Jane Doe"; Position := "Position"; Salary := 0 |} /\
  StatusCode (UpdateEmployee decode_name two put_jane).2 = StatusOK /\
  exists id fields,
    strconv.Atoi (idStr put_jane) = (id, None) /\
    decode_name (Body put_jane) = inr fields /\
    exists stored,
      employees (UpdateEmployee decode_name two put_jane).1 !! id = Some stored /\
      ID stored = id /\ Name stored = Name fields /\
      Position stored = Position fields /\ Salary stored = Salary fields /\
      (UpdateEmployee decode_name two put_jane).2 = Encode (JSON_Employee stored) /\
      forall r', strconv.Atoi (idStr r') = (id, None) ->
        GetEmployeeByID (UpdateEmployee decode_name two put_jane).1 r'
          = Encode (JSON_Employee stored).
Proof.
  split; [reflexivity |]. split; [vm_compute; reflexivity |].
  apply (update_keeps_path_id decode_name two put_jane).
  - apply surjective_pairing.
  - vm_compute; reflexivity.
Defined.

Lemma update_absent_not_found_witness :
  strconv.Atoi (idStr put_absent) = (7, None) /\
  employees two !! 7 = None /\
  (UpdateEmployee decode_name two put_absent).1 = two /\
  forall fields,
    Get (Header put_absent) "Content-Type" = "application/json" ->
    decode_name (Body put_absent) = inr fields ->
    UpdateEmployee decode_name two put_absent
      = (two, Error "Employee not found" StatusNotFound).
Proof.
  split; [vm_compute; reflexivity |]. split; [vm_compute; reflexivity |].
  apply (update_absent_not_found decode_name two put_absent 7);
    vm_compute; reflexivity.
Defined.

Lemma get_after_create_witness :
  assigned_id (CreateEmployee decode_name two (post "Ann")).2 = Some 3 /\
  exists fields created,
    decode_name (Body (post "Ann")) = inr fields /\
    (CreateEmployee decode_name two (post "Ann")).2 = Encode (JSON_Employee created) /\
    ID created = 3 /\ Name created = Name fields /\
    Position created = Position fields /\ Salary created = Salary fields /\
    forall r', strconv.Atoi (idStr r') = (3, None) ->
      GetEmployeeByID (CreateEmployee decode_name two (post "Ann")).1 r'
        = Encode (JSON_Employee created).
Proof.
  split; [vm_compute; reflexivity |].
  apply (get_after_create decode_name two (post "Ann")).
  - apply surjective_pairing.
  - vm_compute; reflexivity.
Defined.

Lemma update_content_type_first_witness :
  strconv.Atoi (idStr put_charset) = (7, None) /\
  Get (Header put_charset) "Content-Type" = "application/json; charset=utf-8" /\
  employees two !! 7 = None /\
  UpdateEmployee decode_name two put_charset =
    (two, Error "Invalid content-type. Expected 'application/json'"
            StatusUnsupportedMediaType).
Proof.
  split; [vm_compute; reflexivity |]. split; [vm_compute; reflexivity |].
  split; [vm_compute; reflexivity |].
  apply (update_content_type_first decode_name two put_charset 7).
  - vm_compute; reflexivity.
  - vm_compute. discriminate.
Defined.

Lemma delete_then_get_witness :
  strconv.Atoi (idStr (by_id "1")) = (1, None) /\
  is_Some (employees two !! 1) /\
  (is_Some (employees two !! 1) ->
     DeleteEmployee two (by_id "1") =
       ({| employees := delete 1 (employees two); lastID := lastID two |},
        {| StatusCode := StatusNoContent; ContentType := EmptyString; Written := NoContent |}) /\
     forall r', strconv.Atoi (idStr r') = (1, None) ->
       GetEmployeeByID (DeleteEmployee two (by_id "1")).1 r'
         = Error "Employee not found" StatusNotFound) /\
  (employees two !! 1 = None ->
     DeleteEmployee two (by_id "1") = (two, Error "Employee not found" StatusNotFound)).
Proof.
  split; [vm_compute; reflexivity |].
  split; [exists alice; vm_compute; reflexivity |].
  apply (delete_then_get two (by_id "1") 1).
  vm_compute; reflexivity.
Defined.

Lemma creates_assign_increasing_ids_witness :
  (exists ids : list Z,
     length (creates decode_name init three_posts).2 = length three_posts /\
     Forall (fun resp => StatusCode resp = StatusOK) (creates decode_name init three_posts).2 /\
     assigned_id <$> (creates decode_name init three_posts).2 = Some <$> ids /\
     ids = seqZ (lastID init + 1) (Z.of_nat (length three_posts)) /\
     NoDup ids /\ StronglySorted Z.lt ids /\
     lastID (creates decode_name init three_posts).1
       = lastID init + Z.of_nat (length three_posts)) /\
  (forall route st1 r st2 out,
     serve decode_name route st1 r st2 out ->
     lastID st1 < maxInt -> lastID st1 <= lastID st2).
Proof.
  apply (creates_assign_increasing_ids decode_name init three_posts).
  - repeat constructor; eexists; reflexivity.
  - unfold in_range, minInt, maxInt. simpl. lia.
  - unfold maxInt. simpl. lia.
Defined.

Lemma refused_replies_witness :
  StatusCode (GetEmployeeByID two (by_id "abc")) = StatusBadRequest /\
  two = two /\
  ((GET_employees_id <> POST_employees /\
    (exists v e, strconv.Atoi (idStr (by_id "abc")) = (v, Some e)) /\
    GetEmployeeByID two (by_id "abc") = Error "Invalid employee ID" StatusBadRequest) \/
   (GET_employees_id = PUT_employees_id /\
    Get (Header (by_id "abc")) "Content-Type" <> "application/json" /\
    GetEmployeeByID two (by_id "abc")
      = Error "Invalid content-type. Expected 'application/json'"
          StatusUnsupportedMediaType) \/
   ((GET_employees_id = POST_employees \/ GET_employees_id = PUT_employees_id) /\
    exists err, decode_name (Body (by_id "abc")) = inl err /\
                GetEmployeeByID two (by_id "abc") = Error err StatusBadRequest) \/
   (GET_employees_id <> POST_employees /\
    exists id, strconv.Atoi (idStr (by_id "abc")) = (id, None) /\
               employees two !! id = None /\
               GetEmployeeByID two (by_id "abc")
                 = Error "Employee not found" StatusNotFound)).
Proof.
  split; [vm_compute; reflexivity |].
  apply (refused_replies decode_name GET_employees_id two (by_id "abc") two
           (GetEmployeeByID two (by_id "abc"))).
  - apply serve_Get.
  - vm_compute. discriminate.
  - vm_compute. discriminate.
Defined.

(** * Further properties of the code *)

(** ** [Atoi] against the decimal reading *)

Lemma byte_bounds c : 0 <= strconv.byte c < 256.
Proof.
  unfold strconv.byte. pose proof (N_ascii_bounded c). lia.
Qed.

Lemma is_digit_spec c :
  is_digit c = true <-> 48 <= strconv.byte c <= 57.
Proof.
  unfold is_digit. change (strconv.byte "0") with 48. change (strconv.byte "9") with 57.
  rewrite andb_true_iff, !Z.leb_le. reflexivity.
Qed.

Lemma Atoi_byte_digit c :
  ((strconv.byte c - strconv.byte "0") mod 256 >? 9) = negb (is_digit c).
Proof.
  pose proof (byte_bounds c) as Hb.
  destruct (is_digit c) eqn:Hd.
  - apply is_digit_spec in Hd. change (strconv.byte "0") with 48.
    rewrite Z.mod_small by lia. cbn [negb]. rewrite Z.gtb_ltb. apply Z.ltb_ge. lia.
  - assert (Hn : ~ (48 <= strconv.byte c <= 57))
      by (rewrite <- is_digit_spec, Hd; discriminate).
    change (strconv.byte "0") with 48. cbn [negb].
    rewrite Z.gtb_ltb. apply Z.ltb_lt.
    destruct (Z.le_gt_cases 48 (strconv.byte c)).
    + rewrite Z.mod_small by lia. lia.
    + replace (strconv.byte c - 48) with (strconv.byte c + 208 + (-1) * 256) by lia.
      rewrite Z.mod_add by lia. rewrite Z.mod_small by lia. lia.
Qed.

Lemma digits_value_bounds s : forall acc v,
  0 <= acc -> digits_value s acc = Some v ->
  acc * 10 ^ Z.of_nat (String.length s) <= v < (acc + 1) * 10 ^ Z.of_nat (String.length s).
Proof.
  induction s as [| c s IH]; intros acc v Hacc Hv; cbn [digits_value String.length] in *.
  - injection Hv as <-. cbn. lia.
  - destruct (is_digit c) eqn:Hd; [| discriminate].
    apply is_digit_spec in Hd. change (strconv.byte "0") with 48 in Hv.
    apply IH in Hv; [| lia].
    rewrite Nat2Z.inj_succ, Z.pow_succ_r by lia.
    assert (0 < 10 ^ Z.of_nat (String.length s)) by (apply Z.pow_pos_nonneg; lia).
    nia.
Qed.

Lemma digits_value_ge s acc v :
  0 <= acc -> digits_value s acc = Some v -> acc <= v.
Proof.
  intros Hacc Hv. pose proof (digits_value_bounds s acc v Hacc Hv) as [Hlo _].
  assert (0 < 10 ^ Z.of_nat (String.length s)) by (apply Z.pow_pos_nonneg; lia).
  nia.
Qed.

Lemma Atoi_loop_digits s : forall n v,
  0 <= n -> digits_value s n = Some v -> v <= maxInt ->
  strconv.Atoi_loop s n = Some v.
Proof.
  induction s as [| c s IH]; intros n v Hn Hv Hmax; cbn [digits_value strconv.Atoi_loop] in *.
  - exact Hv.
  - rewrite Atoi_byte_digit.
    destruct (is_digit c) eqn:Hd; [| discriminate]. cbn [negb].
    apply is_digit_spec in Hd. change (strconv.byte "0") with 48 in *.
    rewrite Z.mod_small by lia.
    assert (Hge : n * 10 + (strconv.byte c - 48) <= v)
      by (eapply digits_value_ge; [| exact Hv]; lia).
    rewrite (wrap_in_range (n * 10)) by (unfold in_range, minInt, maxInt in *; lia).
    rewrite wrap_in_range by (unfold in_range, minInt, maxInt in *; lia).
    apply IH; [lia | exact Hv | exact Hmax].
Qed.

Lemma Atoi_loop_nondigit s : forall n m,
  digits_value s m = None -> strconv.Atoi_loop s n = None.
Proof.
  induction s as [| c s IH]; intros n m Hv; cbn [digits_value strconv.Atoi_loop] in *.
  - discriminate.
  - rewrite Atoi_byte_digit. destruct (is_digit c); cbn [negb]; [| reflexivity].
    eapply IH, Hv.
Qed.

Lemma ParseUint_loop_digits s0 s : forall n v,
  0 <= n <= maxUint64 -> digits_value s n = Some v ->
  strconv.ParseUint_loop s0 s n =
    if v <=? maxUint64 then (v, None)
    else (maxUint64, Some (strconv.rangeError "ParseUint" s0)).
Proof.
  induction s as [| c s IH]; intros n v Hn Hv;
    cbn [digits_value strconv.ParseUint_loop] in *.
  - injection Hv as <-. destruct (Z.leb_spec n maxUint64); [reflexivity | lia].
  - fold (is_digit c). destruct (is_digit c) eqn:Hd; [| discriminate].
    apply is_digit_spec in Hd. change (strconv.byte "0") with 48 in *.
    assert (Hge : n * 10 + (strconv.byte c - 48) <= v)
      by (eapply digits_value_ge; [| exact Hv]; lia).
    unfold maxUint64 in *. change (2 ^ 64 - 1) with 18446744073709551615 in *.
    change (18446744073709551615 / 10 + 1) with 1844674407370955162.
    destruct (Z.geb_spec n 1844674407370955162) as [Hcut | Hcut].
    + destruct (Z.leb_spec v 18446744073709551615); [lia | reflexivity].
    + unfold wrapU. change (2 ^ 64) with 18446744073709551616.
      rewrite (Z.mod_small (n * 10)) by lia.
      destruct (Z.lt_ge_cases (n * 10 + (strconv.byte c - 48)) 18446744073709551616)
        as [Hfit | Hover].
      * rewrite Z.mod_small by lia.
        destruct (Z.ltb_spec (n * 10 + (strconv.byte c - 48)) (n * 10)); [lia |].
        destruct (Z.gtb_spec (n * 10 + (strconv.byte c - 48)) 18446744073709551615);
          [lia |].
        cbn [orb]. apply IH; [lia | exact Hv].
      * replace (n * 10 + (strconv.byte c - 48))
          with (n * 10 + (strconv.byte c - 48) - 18446744073709551616
                + 1 * 18446744073709551616) at 1 2 by lia.
        rewrite Z.mod_add by lia. rewrite Z.mod_small by lia.
        destruct (Z.ltb_spec (n * 10 + (strconv.byte c - 48) - 18446744073709551616)
                    (n * 10)); [| lia].
        cbn [orb]. destruct (Z.leb_spec v 18446744073709551615); [lia | reflexivity].
Qed.

Lemma ParseUint_loop_nondigit s0 s : forall n m,
  digits_value s m = None ->
  exists v e, strconv.ParseUint_loop s0 s n = (v, Some e) /\
    (strconv.Err_ e = strconv.ErrRange -> v = maxUint64).
Proof.
  induction s as [| c s IH]; intros n m Hv;
    cbn [digits_value strconv.ParseUint_loop] in *.
  - discriminate.
  - fold (is_digit c). destruct (is_digit c).
    + repeat case_match; eauto.
    + eexists _, _. split; [reflexivity |]. discriminate.
Qed.

(** [ParseUint] on the digits after the sign. *)
Lemma ParseUint_digits s :
  s <> EmptyString ->
  match digits_value s 0 with
  | Some v =>
      strconv.ParseUint s =
        if v <=? maxUint64 then (v, None)
        else (maxUint64, Some (strconv.rangeError "ParseUint" s))
  | None =>
      exists v e, strconv.ParseUint s = (v, Some e) /\
        (strconv.Err_ e = strconv.ErrRange -> v = maxUint64)
  end.
Proof.
  intros Hne. destruct s as [| c s]; [done |].
  unfold strconv.ParseUint.
  destruct (digits_value (String c s) 0) as [v |] eqn:Hv.
  - apply ParseUint_loop_digits; [unfold maxUint64; lia | exact Hv].
  - eapply ParseUint_loop_nondigit, Hv.
Qed.

Lemma wrap_neg_wrap u : 0 <= u <= 2 ^ 63 -> wrap (- wrap u) = - u.
Proof.
  intros Hu. unfold wrap.
  change (2 ^ 63) with 9223372036854775808 in *.
  change (2 ^ 64) with 18446744073709551616.
  destruct (Z.eq_dec u 9223372036854775808) as [-> | Hne]; [reflexivity |].
  rewrite (Z.mod_small (u + 9223372036854775808)) by lia.
  replace (- (u + 9223372036854775808 - 9223372036854775808) + 9223372036854775808)
    with (9223372036854775808 - u) by lia.
  destruct (Z.eq_dec u 0) as [-> | Hz]; [reflexivity |].
  rewrite Z.mod_small by lia. lia.
Qed.

(** [ParseInt] after the sign is taken off: [body] is what is left of the
    text, [neg] says whether the sign was a minus. *)
Lemma ParseInt_body s0 neg body :
  body <> EmptyString ->
  let res :=
    (let '(un, err) := strconv.ParseUint body in
     let syntax := match err with
                   | Some e => match strconv.Err_ e with
                               | strconv.ErrSyntax => true
                               | strconv.ErrRange => false
                               end
                   | None => false
                   end in
     if syntax then (0, Some (strconv.syntaxError "ParseInt" s0))
     else
       let cutoff := 2 ^ (intSize - 1) in
       if negb neg && (un >=? cutoff)
       then (cutoff - 1, Some (strconv.rangeError "ParseInt" s0))
       else if neg && (un >? cutoff)
       then (- cutoff, Some (strconv.rangeError "ParseInt" s0))
       else (if neg then wrap (- wrap un) else wrap un, None)) in
  match digits_value body 0 with
  | Some u =>
      let v := if neg then - u else u in
      if (minInt <=? v) && (v <=? maxInt) then res = (v, None)
      else res = (if neg then minInt else maxInt, Some (strconv.rangeError "ParseInt" s0))
  | None => exists v e, res = (v, Some e)
  end.
Proof.
  intros Hne res. subst res.
  pose proof (ParseUint_digits body Hne) as HP.
  change (2 ^ (intSize - 1)) with 9223372036854775808.
  destruct (digits_value body 0) as [u |] eqn:Hu.
  - pose proof (digits_value_ge _ _ _ (Z.le_refl 0) Hu) as Hu0.
    rewrite HP. unfold maxUint64, minInt, maxInt.
    change (2 ^ 64 - 1) with 18446744073709551615.
    change (2 ^ 63 - 1) with 9223372036854775807.
    change (- 2 ^ 63) with (-9223372036854775808).
    change (9223372036854775808 - 1) with 9223372036854775807.
    destruct (Z.leb_spec u 18446744073709551615) as [Hfit | Hover];
      cbn [strconv.Err_ strconv.rangeError]; destruct neg; cbn [negb andb].
    + destruct (Z.gtb_spec u 9223372036854775808) as [Hbig | Hsmall].
      * destruct (Z.leb_spec (-9223372036854775808) (- u)); [lia | reflexivity].
      * destruct (Z.leb_spec (-9223372036854775808) (- u)); [| lia].
        destruct (Z.leb_spec (- u) 9223372036854775807); [| lia]. cbn [andb].
        rewrite wrap_neg_wrap by (change (2 ^ 63) with 9223372036854775808; lia).
        reflexivity.
    + destruct (Z.geb_spec u 9223372036854775808) as [Hbig | Hsmall].
      * destruct (Z.leb_spec (-9223372036854775808) u); [| lia].
        destruct (Z.leb_spec u 9223372036854775807); [lia | reflexivity].
      * destruct (Z.leb_spec (-9223372036854775808) u); [| lia].
        destruct (Z.leb_spec u 9223372036854775807); [| lia]. cbn [andb].
        rewrite wrap_in_range by (unfold in_range, minInt, maxInt; lia). reflexivity.
    + destruct (Z.leb_spec (-9223372036854775808) (- u)); [lia | reflexivity].
    + destruct (Z.leb_spec (-9223372036854775808) u); [| lia].
      destruct (Z.leb_spec u 9223372036854775807); [lia | reflexivity].
  - destruct HP as (v & e & -> & Hrange).
    destruct (strconv.Err_ e) eqn:He; [eauto |].
    rewrite (Hrange eq_refl). destruct neg; cbn; eauto.
Qed.

Lemma ParseInt_decimal s :
  match decimal_value s with
  | Some v =>
      if (minInt <=? v) && (v <=? maxInt) then strconv.ParseInt s = (v, None)
      else exists e, strconv.ParseInt s = (if v <? 0 then minInt else maxInt, Some e) /\
                     strconv.Err_ e = strconv.ErrRange
  | None => exists v e, strconv.ParseInt s = (v, Some e)
  end.
Proof.
  destruct s as [| c0 rest]; [cbn; eauto |].
  unfold decimal_value, strconv.ParseInt.
  destruct (Ascii.eqb_spec c0 "-") as [-> | Hminus].
  - cbn [orb Ascii.eqb]. change (Ascii.eqb "-" "+") with false. cbn [orb].
    destruct rest as [| c rest]; [cbn; eauto |].
    pose proof (ParseInt_body (String "-" (String c rest)) true (String c rest)
                  ltac:(discriminate)) as HB.
    cbv zeta in HB.
    destruct (digits_value (String c rest) 0) as [u |] eqn:Hu; cbn [fmap option_fmap option_map].
    + pose proof (digits_value_ge _ _ _ (Z.le_refl 0) Hu) as Hu0.
      destruct ((minInt <=? - u) && (- u <=? maxInt)) eqn:Hin; [exact HB |].
      assert (Hneg : (- u <? 0) = true).
      { apply Z.ltb_lt. destruct (Z.eq_dec u 0) as [-> | Hz]; [discriminate | lia]. }
      rewrite Hneg. eexists. split; [exact HB | reflexivity].
    + exact HB.
  - destruct (Ascii.eqb_spec c0 "+") as [-> | Hplus].
    + cbn [orb].
      destruct rest as [| c rest]; [cbn; eauto |].
      pose proof (ParseInt_body (String "+" (String c rest)) false (String c rest)
                    ltac:(discriminate)) as HB.
      cbv zeta in HB. change (Ascii.eqb "+" "-") with false.
      destruct (digits_value (String c rest) 0) as [u |] eqn:Hu; cbn [fmap option_fmap option_map].
      * pose proof (digits_value_ge _ _ _ (Z.le_refl 0) Hu) as Hu0.
        destruct ((minInt <=? u) && (u <=? maxInt)) eqn:Hin; [exact HB |].
        assert (Hpos : (u <? 0) = false) by (apply Z.ltb_ge; lia).
        rewrite Hpos. eexists. split; [exact HB | reflexivity].
      * exact HB.
    + cbn [orb].
      pose proof (ParseInt_body (String c0 rest) false (String c0 rest)
                    ltac:(discriminate)) as HB.
      cbv zeta in HB.
      destruct (digits_value (String c0 rest) 0) as [u |] eqn:Hu.
      * pose proof (digits_value_ge _ _ _ (Z.le_refl 0) Hu) as Hu0.
        destruct ((minInt <=? u) && (u <=? maxInt)) eqn:Hin; [exact HB |].
        assert (Hpos : (u <? 0) = false) by (apply Z.ltb_ge; lia).
        rewrite Hpos. eexists. split; [exact HB | reflexivity].
      * exact HB.
Qed.

Lemma digits_value_short s u :
  digits_value s 0 = Some u -> Z.of_nat (String.length s) < 19 ->
  0 <= u < 10 ^ 18.
Proof.
  intros Hu Hlen. pose proof (digits_value_bounds s 0 u (Z.le_refl 0) Hu) as [Hlo Hhi].
  assert (10 ^ Z.of_nat (String.length s) <= 10 ^ 18)
    by (apply Z.pow_le_mono_r; lia).
  lia.
Qed.

(** [Atoi] reads a decimal numeral that fits an [int] as its value, reports
    a range error with the nearest [int] for one that does not fit, and an
    error for any other text. *)
Lemma Atoi_decimal s :
  match decimal_value s with
  | Some v =>
      if (minInt <=? v) && (v <=? maxInt) then strconv.Atoi s = (v, None)
      else exists e, strconv.Atoi s = (if v <? 0 then minInt else maxInt, Some e) /\
                     strconv.Err_ e = strconv.ErrRange
  | None => exists v e, strconv.Atoi s = (v, Some e)
  end.
Proof.
  unfold strconv.Atoi.
  destruct ((0 <? Z.of_nat (String.length s)) && (Z.of_nat (String.length s) <? 19))
    eqn:Hfast.
  - apply andb_true_iff in Hfast as [Hpos Hlen].
    apply Z.ltb_lt in Hpos, Hlen.
    destruct s as [| c0 rest]; [cbn in Hpos; lia |].
    unfold decimal_value.
    destruct (Ascii.eqb c0 "-" || Ascii.eqb c0 "+") eqn:Hsigned.
    + destruct rest as [| c rest]; [cbn; eauto |].
      replace (Z.of_nat (String.length (String c rest)) <? 1) with false
        by (symmetry; apply Z.ltb_ge; cbn [String.length]; lia).
      cbn [andb].
      destruct (digits_value (String c rest) 0) as [u |] eqn:Hu;
        cbn [fmap option_fmap option_map].
      * assert (Hu18 : 0 <= u < 10 ^ 18).
        { apply (digits_value_short _ _ Hu). cbn [String.length] in *. lia. }
        change (10 ^ 18) with 1000000000000000000 in Hu18.
        rewrite (Atoi_loop_digits _ 0 u (Z.le_refl 0) Hu) by (unfold maxInt; lia).
        destruct (Ascii.eqb c0 "-").
        -- replace ((minInt <=? - u) && (- u <=? maxInt)) with true
             by (symmetry; apply andb_true_iff; rewrite !Z.leb_le;
                 unfold minInt, maxInt; lia).
           rewrite wrap_in_range by (unfold in_range, minInt, maxInt; lia). reflexivity.
        -- replace ((minInt <=? u) && (u <=? maxInt)) with true
             by (symmetry; apply andb_true_iff; rewrite !Z.leb_le;
                 unfold minInt, maxInt; lia).
           reflexivity.
      * rewrite (Atoi_loop_nondigit _ 0 0 Hu). eauto.
    + cbn [andb].
      assert (Hminus : Ascii.eqb c0 "-" = false)
        by (apply orb_false_iff in Hsigned; tauto).
      destruct (digits_value (String c0 rest) 0) as [u |] eqn:Hu.
      * assert (Hu18 : 0 <= u < 10 ^ 18) by (apply (digits_value_short _ _ Hu); lia).
        change (10 ^ 18) with 1000000000000000000 in Hu18.
        rewrite (Atoi_loop_digits _ 0 u (Z.le_refl 0) Hu) by (unfold maxInt; lia).
        rewrite Hminus.
        replace ((minInt <=? u) && (u <=? maxInt)) with true
          by (symmetry; apply andb_true_iff; rewrite !Z.leb_le;
              unfold minInt, maxInt; lia).
        reflexivity.
      * rewrite (Atoi_loop_nondigit _ 0 0 Hu). eauto.
  - pose proof (ParseInt_decimal s) as HP.
    destruct (decimal_value s) as [v |].
    + destruct ((minInt <=? v) && (v <=? maxInt)).
      * rewrite HP. reflexivity.
      * destruct HP as (e & -> & He). cbn. eexists. split; [reflexivity | exact He].
    + destruct HP as (v & e & ->). cbn. eauto.
Qed.

(** X2. [Atoi] returns a value without an error exactly on the decimal
    numerals (an optional sign and one digit or more, nothing else) whose
    value fits an [int], and the value it returns is the value of the
    numeral. *)
Theorem Atoi_accepts_decimal s v :
  strconv.Atoi s = (v, None) <-> decimal_value s = Some v /\ in_range v.
Proof.
  pose proof (Atoi_decimal s) as HA. unfold in_range. split.
  - intros Hs. destruct (decimal_value s) as [w |].
    + destruct ((minInt <=? w) && (w <=? maxInt)) eqn:Hin.
      * rewrite HA in Hs. injection Hs as <-.
        apply andb_true_iff in Hin. rewrite !Z.leb_le in Hin. auto.
      * destruct HA as (e & HA & _). rewrite HA in Hs. discriminate.
    + destruct HA as (w & e & HA). rewrite HA in Hs. discriminate.
  - intros [Hd Hin]. rewrite Hd in HA.
    replace ((minInt <=? v) && (v <=? maxInt)) with true in HA
      by (symmetry; apply andb_true_iff; rewrite !Z.leb_le; exact Hin).
    exact HA.
Qed.

(** ** [%d] and [Atoi] *)

Lemma digit_byte d : 0 <= d <= 9 -> strconv.byte (fmt.digit d) = 48 + d.
Proof.
  intros Hd. unfold fmt.digit, strconv.byte. change (Z.of_N (N_of_ascii "0")) with 48.
  rewrite N_ascii_embedding by lia. lia.
Qed.

Lemma digit_is_digit d : 0 <= d <= 9 -> is_digit (fmt.digit d) = true.
Proof. intros Hd. apply is_digit_spec. rewrite digit_byte by exact Hd. lia. Qed.

(** The buffer reads as the number [w] on [P]'s worth of digits. *)
Lemma fmtInteger_loop_value steps : forall u buf P w,
  0 <= u < 10 ^ Z.of_nat (S steps) ->
  0 < P -> (forall acc, digits_value buf acc = Some (acc * P + w)) ->
  exists P' c rest,
    0 < P' /\
    fmt.fmtInteger_loop (S steps) u buf = String c rest /\ is_digit c = true /\
    forall acc, digits_value (String c rest) acc = Some (acc * P' + (u * P + w)).
Proof.
  induction steps as [| steps IH]; intros u buf P w Hu HP Hbuf.
  - change (10 ^ Z.of_nat 1) with 10 in Hu. cbn [fmt.fmtInteger_loop].
    destruct (Z.geb_spec u 10) as [Hge | Hlt]; [lia |].
    exists (10 * P), (fmt.digit u), buf. split; [lia |]. split; [reflexivity |].
    split; [apply digit_is_digit; lia |].
    intros acc. cbn [digits_value]. rewrite digit_is_digit by lia.
    change (strconv.byte "0") with 48. rewrite digit_byte by lia.
    rewrite Hbuf. f_equal. lia.
  - remember (S steps) as n eqn:Hn. cbn [fmt.fmtInteger_loop].
    destruct (Z.geb_spec u 10) as [Hge | Hlt].
    + assert (Hd : 0 <= u - u / 10 * 10 <= 9)
        by (pose proof (Z.div_mod u 10 ltac:(lia)); pose proof (Z.mod_pos_bound u 10 ltac:(lia)); lia).
      assert (Hnext : 0 <= u / 10 < 10 ^ Z.of_nat n).
      { split; [apply Z.div_pos; lia |].
        apply Z.div_lt_upper_bound; [lia |].
        rewrite <- Z.pow_succ_r by lia. rewrite <- Nat2Z.inj_succ. lia. }
      subst n.
      destruct (IH (u / 10) (String (fmt.digit (u - u / 10 * 10)) buf) (10 * P)
                  ((u - u / 10 * 10) * P + w) Hnext ltac:(lia))
        as (P' & c & rest & HP' & Heq & Hc & Hval).
      { intros acc. cbn [digits_value]. rewrite digit_is_digit by lia.
        change (strconv.byte "0") with 48. rewrite digit_byte by lia.
        rewrite Hbuf. f_equal. lia. }
      exists P', c, rest. repeat split; [exact HP' | exact Heq | exact Hc |].
      intros acc. rewrite Hval. f_equal. nia.
    + exists (10 * P), (fmt.digit u), buf. split; [lia |]. split; [reflexivity |].
      split; [apply digit_is_digit; lia |].
      intros acc. cbn [digits_value]. rewrite digit_is_digit by lia.
      change (strconv.byte "0") with 48. rewrite digit_byte by lia.
      rewrite Hbuf. f_equal. lia.
Qed.

Lemma fmtInteger_loop_decimal u :
  0 <= u < 2 ^ 64 ->
  exists c rest,
    fmt.fmtInteger_loop 20 u EmptyString = String c rest /\ is_digit c = true /\
    digits_value (String c rest) 0 = Some u.
Proof.
  intros Hu.
  destruct (fmtInteger_loop_value 19 u EmptyString 1 0) as (P' & c & rest & _ & Heq & Hc & Hval).
  - change (10 ^ Z.of_nat 20) with 100000000000000000000.
    change (2 ^ 64) with 18446744073709551616 in Hu. lia.
  - lia.
  - intros acc. cbn. f_equal. lia.
  - exists c, rest. split; [exact Heq |]. split; [exact Hc |].
    rewrite Hval. f_equal. lia.
Qed.

Lemma is_digit_not_sign c :
  is_digit c = true -> Ascii.eqb c "-" || Ascii.eqb c "+" = false.
Proof.
  intros Hd. apply is_digit_spec in Hd. apply orb_false_iff.
  split; apply Ascii.eqb_neq; intros ->; vm_compute in Hd; destruct Hd as [H1 H2];
    apply H1; reflexivity.
Qed.

(** The text [%d] writes for an [int] is a decimal numeral of that value. *)
Lemma Sprintf_d_decimal v :
  in_range v -> decimal_value (fmt.Sprintf_d v) = Some v.
Proof.
  unfold in_range, minInt, maxInt. change (2 ^ 63) with 9223372036854775808.
  intros Hv. unfold fmt.Sprintf_d.
  destruct (Z.ltb_spec v 0) as [Hneg | Hpos].
  - unfold wrapU. change (2 ^ 64) with 18446744073709551616.
    rewrite Z.mod_small by lia.
    destruct (fmtInteger_loop_decimal (- v)) as (c & rest & -> & Hc & Hval);
      [change (2 ^ 64) with 18446744073709551616; lia |].
    unfold decimal_value. cbn [Ascii.eqb orb]. change (Ascii.eqb "-" "-") with true.
    cbn [orb]. rewrite Hval. cbn. f_equal. lia.
  - unfold wrapU. change (2 ^ 64) with 18446744073709551616.
    rewrite Z.mod_small by lia.
    destruct (fmtInteger_loop_decimal v) as (c & rest & -> & Hc & Hval);
      [change (2 ^ 64) with 18446744073709551616; lia |].
    unfold decimal_value. rewrite (is_digit_not_sign c Hc). exact Hval.
Qed.

Lemma Atoi_Sprintf_d v : in_range v -> strconv.Atoi (fmt.Sprintf_d v) = (v, None).
Proof.
  intros Hv. pose proof (Atoi_decimal (fmt.Sprintf_d v)) as HA.
  rewrite (Sprintf_d_decimal v Hv) in HA.
  replace ((minInt <=? v) && (v <=? maxInt)) with true in HA
    by (symmetry; apply andb_true_iff; rewrite !Z.leb_le; exact Hv).
  exact HA.
Qed.

Lemma idStr_get_id id : idStr (get_id id) = fmt.Sprintf_d id.
Proof. unfold idStr, get_id, by_id. cbn. by rewrite lookup_singleton_eq. Qed.

Lemma idStr_put_id id body : idStr (put_id id body) = fmt.Sprintf_d id.
Proof. unfold idStr, put_id, put. cbn. by rewrite lookup_singleton_eq. Qed.

(** X1. An identifier written with [%d] into the path, as the tests
    write it, is read back by the handler's [Atoi] as the same identifier,
    for every [int]. *)
Theorem path_id_round_trip id :
  in_range id ->
  strconv.Atoi (idStr (get_id id)) = (id, None) /\
  forall body, strconv.Atoi (idStr (put_id id body)) = (id, None).
Proof.
  intros Hid. split; [| intros body].
  - rewrite idStr_get_id. apply Atoi_Sprintf_d, Hid.
  - rewrite idStr_put_id. apply Atoi_Sprintf_d, Hid.
Qed.

(** ** What a request does to the store *)

Section Store.

Variable Decode : string -> string + Employee.


(** X4. A request changes at most one entry of the map: the entry of the
    identifier a create assigns, or the entry of the identifier in the path
    of an update or a delete.  Every other identifier maps after the request
    to what it mapped to before. *)
Theorem other_records_untouched route st r st' out id' :
  serve Decode route st r st' out ->
  id' <> (match route with
          | POST_employees => wrap (lastID st + 1)
          | _ => (strconv.Atoi (idStr r)).1
          end) ->
  employees st' !! id' = employees st !! id'.
Proof.
  intros [st0 r0 | st0 r0 | st0 r0 | st0 r0 | st0 r0 out0 _] Hne; try reflexivity.
  - unfold CreateEmployee. destruct (Decode (Body r0)); cbn; [reflexivity |].
    by rewrite lookup_insert_ne.
  - unfold UpdateEmployee. destruct (strconv.Atoi (idStr r0)) as [id [e |]]; cbn in *;
      [reflexivity |].
    repeat case_match; cbn; try reflexivity. by rewrite lookup_insert_ne.
  - unfold DeleteEmployee. destruct (strconv.Atoi (idStr r0)) as [id [e |]]; cbn in *;
      [reflexivity |].
    case_match; cbn; [| reflexivity]. by rewrite lookup_delete_ne.
Qed.

Lemma serve_keys_issued route st r st' out :
  serve Decode route st r st' out ->
  0 <= lastID st < maxInt -> keys_issued st -> keys_issued st'.
Proof.
  intros [st0 r0 | st0 r0 | st0 r0 | st0 r0 | st0 r0 out0 _] Hlast Hinv; try exact Hinv.
  - unfold CreateEmployee. destruct (Decode (Body r0)) as [err | emp]; [exact Hinv |].
    rewrite wrap_in_range by (unfold in_range, minInt, maxInt in *; lia).
    intros id. cbn. rewrite lookup_insert. case_decide as Hid.
    + intros _. lia.
    + intros Hsome. specialize (Hinv id Hsome). lia.
  - unfold UpdateEmployee.
    destruct (strconv.Atoi (idStr r0)) as [id0 [nerr |]]; [exact Hinv |].
    destruct (negb _); [exact Hinv |].
    destruct (Decode (Body r0)) as [err | emp]; [exact Hinv |].
    destruct (employees st0 !! id0) eqn:Hm; [| exact Hinv].
    intros id. cbn. rewrite lookup_insert. case_decide as Hid.
    + intros _. subst id. apply Hinv. by rewrite Hm.
    + apply Hinv.
  - unfold DeleteEmployee.
    destruct (strconv.Atoi (idStr r0)) as [id0 [nerr |]]; [exact Hinv |].
    destruct (employees st0 !! id0); [| exact Hinv].
    intros id. cbn. rewrite lookup_delete. case_decide; [by intros [? ?] | apply Hinv].
Qed.

Lemma run_invariants st reqs st' outs :
  run Decode st reqs st' outs ->
  0 <= lastID st -> lastID st + Z.of_nat (length reqs) <= maxInt ->
  keyed_by_ID st -> keys_issued st ->
  keyed_by_ID st' /\ keys_issued st'.
Proof.
  induction 1 as [st | st route r st1 out reqs st2 outs Hserve Hrun IH];
    intros H0 Hmax Hk Hi; [auto |].
  cbn [length] in Hmax.
  assert (Hstep : lastID st <= lastID st1 <= lastID st + 1).
  { assert (Hr : run Decode st [(route, r)] st1 [out]) by (econstructor; [eauto | constructor]).
    apply run_lastID in Hr; cbn in *; unfold in_range, minInt, maxInt in *; lia. }
  apply IH; [lia | lia | |].
  - eapply serve_keyed_by_ID; eauto.
  - eapply serve_keys_issued; eauto. lia.
Qed.

(** X5. In every store the server reaches from its initial state by at
    most 2^63-1 requests, each record sits under its own identifier, every
    key is an identifier the counter has issued (between 1 and [lastID]),
    and the counter is at most the number of requests served. *)
Theorem reachable_store reqs st outs :
  run Decode init reqs st outs ->
  Z.of_nat (length reqs) <= maxInt ->
  keyed_by_ID st /\ keys_issued st /\ 0 <= lastID st <= Z.of_nat (length reqs).
Proof.
  intros Hrun Hmax.
  destruct (run_invariants _ _ _ _ Hrun) as [Hk Hi]; cbn; try lia.
  - apply init_keyed_by_ID.
  - intros id. cbn. rewrite lookup_empty. by intros [? ?].
  - split; [exact Hk |]. split; [exact Hi |].
    eapply run_init_lastID; eauto.
Qed.

(** X6. A create never overwrites and never reuses an identifier: when
    every key is an identifier the counter has issued and the counter is
    below the largest [int], the identifier assigned is above every key of
    the map, the record is added under it, the map grows by one entry and
    keeps every record it held. *)
Theorem create_is_fresh st r fields :
  keys_issued st -> 0 <= lastID st < maxInt ->
  Decode (Body r) = inr fields ->
  (forall id, is_Some (employees st !! id) -> id < lastID st + 1) /\
  employees st !! (lastID st + 1) = None /\
  employees (CreateEmployee Decode st r).1
    = <[lastID st + 1 := set_ID fields (lastID st + 1)]> (employees st) /\
  size (employees (CreateEmployee Decode st r).1) = S (size (employees st)) /\
  (forall id emp, employees st !! id = Some emp ->
                  employees (CreateEmployee Decode st r).1 !! id = Some emp).
Proof.
  intros Hi Hlast HD.
  assert (Hkeys : forall id, is_Some (employees st !! id) -> id < lastID st + 1)
    by (intros id Hs; specialize (Hi id Hs); lia).
  assert (Hfresh : employees st !! (lastID st + 1) = None).
  { destruct (employees st !! (lastID st + 1)) eqn:Hm; [| reflexivity].
    specialize (Hkeys (lastID st + 1)). rewrite Hm in Hkeys.
    specialize (Hkeys ltac:(eauto)). lia. }
  rewrite (CreateEmployee_next Decode st r fields HD)
    by (unfold in_range, minInt, maxInt in *; lia).
  cbn. repeat split; try assumption.
  - by apply map_size_insert_None.
  - intros id emp Hm. rewrite lookup_insert_ne; [exact Hm |].
    intros <-. congruence.
Qed.

(** X7. An update is idempotent: the same request served again on the
    store it left gives the same store and the same reply. *)
Theorem update_idempotent st r :
  UpdateEmployee Decode (UpdateEmployee Decode st r).1 r = UpdateEmployee Decode st r.
Proof.
  unfold UpdateEmployee.
  destruct (strconv.Atoi (idStr r)) as [id [e |]]; [reflexivity |].
  destruct (negb _); [reflexivity |].
  destruct (Decode (Body r)) as [err | emp]; [reflexivity |].
  destruct (employees st !! id) eqn:Hm; cbn; [| by rewrite Hm].
  rewrite lookup_insert_eq. by rewrite insert_insert_eq.
Qed.

(** X8. An update never adds or removes a record and never moves the
    counter: the set of identifiers in the store and [lastID] are the same
    after it, whatever the request. *)
Theorem update_keeps_identifiers st r :
  dom (employees (UpdateEmployee Decode st r).1) = dom (employees st) /\
  lastID (UpdateEmployee Decode st r).1 = lastID st.
Proof.
  unfold UpdateEmployee.
  destruct (strconv.Atoi (idStr r)) as [id [e |]]; [done |].
  destruct (negb _); [done |].
  destruct (Decode (Body r)) as [err | emp]; [done |].
  destruct (employees st !! id) eqn:Hm; [| done].
  cbn. split; [| reflexivity].
  apply dom_insert_lookup_L. by rewrite Hm.
Qed.

End Store.

(** X9. A delete served a second time finds nothing to do: on the store
    the first delete left, the same request changes nothing and is never
    answered 204; when the first was answered 204, the second is answered
    404. *)
Theorem delete_twice st r :
  (DeleteEmployee (DeleteEmployee st r).1 r).1 = (DeleteEmployee st r).1 /\
  StatusCode (DeleteEmployee (DeleteEmployee st r).1 r).2 <> StatusNoContent /\
  (StatusCode (DeleteEmployee st r).2 = StatusNoContent ->
   (DeleteEmployee (DeleteEmployee st r).1 r).2 = Error "Employee not found" StatusNotFound).
Proof.
  unfold DeleteEmployee.
  destruct (strconv.Atoi (idStr r)) as [id [e |]]; cbn; [done |].
  destruct (employees st !! id) eqn:Hm; cbn.
  - rewrite lookup_delete_eq. cbn. done.
  - rewrite Hm. cbn. done.
Qed.

Section Composition.

Variable Decode : string -> string + Employee.

(** X10. Deleting the record a create has just added, by the identifier
    the create assigned written with [%d] in the path, is answered 204 and
    gives back the map as it was before the create; only the counter keeps
    the identifier as used. *)
Theorem create_then_delete st r fields :
  keys_issued st -> 0 <= lastID st < maxInt ->
  Decode (Body r) = inr fields ->
  lastID (CreateEmployee Decode st r).1 = lastID st + 1 /\
  DeleteEmployee (CreateEmployee Decode st r).1
                 (get_id (lastID (CreateEmployee Decode st r).1))
    = ({| employees := employees st; lastID := lastID st + 1 |},
       {| StatusCode := StatusNoContent; ContentType := EmptyString; Written := NoContent |}).
Proof.
  intros Hi Hlast HD.
  assert (Hfresh : employees st !! (lastID st + 1) = None).
  { destruct (employees st !! (lastID st + 1)) eqn:Hm; [| reflexivity].
    specialize (Hi (lastID st + 1)). rewrite Hm in Hi.
    specialize (Hi ltac:(eauto)). lia. }
  rewrite (CreateEmployee_next Decode st r fields HD)
    by (unfold in_range, minInt, maxInt in *; lia).
  cbn [fst lastID]. split; [reflexivity |].
  unfold DeleteEmployee. rewrite idStr_get_id.
  rewrite Atoi_Sprintf_d by (unfold in_range, minInt, maxInt in *; lia).
  cbn [employees lastID]. rewrite lookup_insert_eq.
  by rewrite delete_insert_id.
Qed.


End Composition.

(** ** The list route *)

Lemma Atoi_in_range s v err : strconv.Atoi s = (v, err) -> in_range v.
Proof.
  intros HA. destruct err as [e |].
  - destruct (Atoi_error _ _ _ HA) as [[_ ->] | [_ [-> | ->]]];
      unfold in_range, minInt, maxInt; lia.
  - pose proof (Atoi_decimal s) as HD. destruct (decimal_value s) as [w |].
    + destruct ((minInt <=? w) && (w <=? maxInt)) eqn:Hin.
      * rewrite HD in HA. injection HA as <-.
        apply andb_true_iff in Hin. rewrite !Z.leb_le in Hin. exact Hin.
      * destruct HD as (e & HD & _). rewrite HD in HA. discriminate.
    + destruct HD as (w & e & HD). rewrite HD in HA. discriminate.
Qed.

Lemma query_int_range r key dflt :
  1 <= dflt <= maxInt -> 1 <= query_int r key dflt <= maxInt.
Proof.
  intros Hd. unfold query_int.
  destruct (strconv.Atoi (Get (URL_Query r) key)) as [v err] eqn:HA.
  apply Atoi_in_range in HA. unfold in_range in HA.
  destruct (Z.ltb_spec v 1); lia.
Qed.

Lemma slice_Some {A} (l : list A) low high results :
  slice l low high = Some results ->
  0 <= low <= high /\ high <= Z.of_nat (length l) /\
  results = take (Z.to_nat (high - low)) (drop (Z.to_nat low) l).
Proof.
  unfold slice. destruct (_ && _) eqn:Hb; [| discriminate].
  apply andb_true_iff in Hb as [Hb Hh]. apply andb_true_iff in Hb as [Hl Hlh].
  apply Z.leb_le in Hl, Hlh, Hh. intros [= <-]. auto.
Qed.

Lemma paginate_Some pageSize page (l results : list Employee) :
  1 <= pageSize <= maxInt ->
  paginate page pageSize l = Some results ->
  (exists before after, l = (before ++ results ++ after)%list) /\
  Z.of_nat (length results) <= pageSize.
Proof.
  intros Hps. unfold paginate.
  pose proof (wrap_range (wrap (page - 1) * pageSize)) as Hs.
  set (startIdx := wrap (wrap (page - 1) * pageSize)) in *.
  destruct (Z.geb_spec startIdx (Z.of_nat (length l))) as [Hge | Hlt].
  - intros [= <-]. split; [exists l, []; by rewrite app_nil_r | cbn; lia].
  - intros Hslice. apply slice_Some in Hslice as ((Hlo & Hhi) & Hlen & ->).
    split.
    + eexists (take (Z.to_nat startIdx) l), (drop _ (drop (Z.to_nat startIdx) l)).
      by rewrite take_drop, take_drop.
    + rewrite length_take.
      assert (Hend : (if wrap (startIdx + pageSize) >? Z.of_nat (length l)
                      then Z.of_nat (length l) else wrap (startIdx + pageSize))
                     <= startIdx + pageSize).
      { destruct (Z.le_gt_cases (startIdx + pageSize) maxInt) as [Hfit | Hover].
        - rewrite wrap_in_range by (unfold in_range, minInt, maxInt in *; lia).
          destruct (Z.gtb_spec (startIdx + pageSize) (Z.of_nat (length l))); lia.
        - exfalso. revert Hhi.
          assert (Hw : wrap (startIdx + pageSize) < 0).
          { unfold wrap, in_range, minInt, maxInt in *.
            change (2 ^ 63) with 9223372036854775808 in *.
            change (2 ^ 64) with 18446744073709551616 in *.
            replace (startIdx + pageSize + 9223372036854775808)
              with (startIdx + pageSize - 9223372036854775808 + 1 * 18446744073709551616)
              by lia.
            rewrite Z.mod_add by lia. rewrite Z.mod_small by lia. lia. }
          destruct (Z.gtb_spec (wrap (startIdx + pageSize)) (Z.of_nat (length l)));
            lia. }
      lia.
Qed.

Lemma range_order_stored (m : gmap Z Employee) l emp :
  range_order m l -> emp ∈ l -> exists id, m !! id = Some emp.
Proof.
  unfold range_order. intros Hperm Hin. rewrite Hperm in Hin.
  apply list_elem_of_fmap in Hin as ([id e] & -> & Hin).
  apply elem_of_map_to_list in Hin. eauto.
Qed.

Lemma range_order_length (m : gmap Z Employee) l :
  range_order m l -> length l = size m.
Proof.
  unfold range_order. intros Hperm.
  by rewrite Hperm, length_fmap, length_map_to_list.
Qed.

(** X11. Whatever the query, a reply of the list route is a run of
    consecutive records out of one enumeration of the store, and it is no
    longer than the effective page size: the records of a reply are records
    the store holds, none is invented and none occurs more often than the
    enumeration has it. *)
Theorem list_reply_is_segment st r resp :
  ListEmployees st r (Responded resp) ->
  exists employeeList before results after,
    range_order (employees st) employeeList /\
    employeeList = (before ++ results ++ after)%list /\
    resp = Encode (JSON_List results) /\
    Z.of_nat (length results) <= query_int r "pageSize" 10 /\
    (forall emp, emp ∈ results -> exists id, employees st !! id = Some emp).
Proof.
  intros Hlist. inversion Hlist as [l Hl Hout].
  unfold ListEmployees_over in Hout.
  destruct (paginate _ _ l) as [results |] eqn:Hp; [| discriminate].
  injection Hout as <-.
  apply paginate_Some in Hp as [(before & after & Heq) Hlen];
    [| apply query_int_range; unfold maxInt; lia].
  exists l, before, results, after. repeat split; try assumption.
  intros emp Hin. apply (range_order_stored _ l); [exact Hl |].
  rewrite Heq. set_solver.
Qed.

Lemma page_slice_take_drop {A} page pageSize (l : list A) :
  1 <= page -> 1 <= pageSize ->
  page_slice page pageSize l
    = take (Z.to_nat pageSize) (drop (Z.to_nat ((page - 1) * pageSize)) l).
Proof.
  intros Hp Hs. unfold page_slice, subsequence.
  assert (H0 : 0 <= (page - 1) * pageSize) by nia.
  destruct (Z.geb_spec ((page - 1) * pageSize) (Z.of_nat (length l))) as [Hge | Hlt].
  - rewrite drop_ge by lia. by rewrite take_nil.
  - destruct (Z.le_gt_cases ((page - 1) * pageSize + pageSize) (Z.of_nat (length l))).
    + rewrite Z.min_l by lia. f_equal. lia.
    + rewrite Z.min_r by lia.
      rewrite !take_ge; [reflexivity | |]; rewrite length_drop; lia.
Qed.

(** X12. The pages of one list partition it: for a page size of at least
    1, the pages 1 to [n] exist as long as [n * pageSize] stays within
    [int], and laid end to end they are the first [n * pageSize] records of
    the list, the whole list once that reaches its length.  No record is
    skipped and none is served on two pages. *)
Theorem pages_partition_the_list pageSize (employeeList : list Employee) (n : nat) :
  1 <= pageSize -> Z.of_nat n * pageSize <= maxInt ->
  exists pages,
    Forall2 (fun page results => paginate page pageSize employeeList = Some results)
            (seqZ 1 (Z.of_nat n)) pages /\
    concat pages = take (Z.to_nat (Z.of_nat n * pageSize)) employeeList /\
    (Z.of_nat (length employeeList) <= Z.of_nat n * pageSize ->
     concat pages = employeeList).
Proof.
  intros Hs. induction n as [| n IH]; intros Hmax.
  - exists []. split; [constructor |]. split; [reflexivity |].
    intros Hlen. destruct employeeList; [reflexivity | cbn in Hlen; lia].
  - destruct IH as (pages & Hpages & Hcat & _); [nia |].
    exists (pages ++ [page_slice (1 + Z.of_nat n) pageSize employeeList])%list.
    assert (Hconcat :
      concat (pages ++ [page_slice (1 + Z.of_nat n) pageSize employeeList])%list
        = take (Z.to_nat (Z.of_nat (S n) * pageSize)) employeeList).
    { rewrite concat_app, Hcat. cbn [concat]. rewrite app_nil_r.
      rewrite page_slice_take_drop by lia.
      replace (1 + Z.of_nat n - 1) with (Z.of_nat n) by lia.
      rewrite take_take_drop. f_equal. nia. }
    split; [| split].
    + rewrite seqZ_S. apply Forall2_app; [exact Hpages |].
      constructor; [| constructor].
      apply paginate_in_range; lia.
    + exact Hconcat.
    + intros Hlen. rewrite Hconcat. apply take_ge. lia.
Qed.

(** X13. While the page arithmetic stays within [int], the list route
    never panics and the number of records in its reply does not depend on
    the order the map was visited in: it is the page size, or what is left
    of the records after the pages before it, or zero. *)
Theorem list_reply_count st r out :
  query_int r "page" 1 * query_int r "pageSize" 10 <= maxInt ->
  ListEmployees st r out ->
  exists results,
    out = Responded (Encode (JSON_List results)) /\
    Z.of_nat (length results)
      = Z.max 0 (Z.min (query_int r "pageSize" 10)
                       (Z.of_nat (size (employees st))
                        - (query_int r "page" 1 - 1) * query_int r "pageSize" 10)).
Proof.
  intros Hmax Hlist.
  destruct (ListEmployees_in_range st r out Hmax Hlist) as (l & Hl & ->).
  pose proof (query_int_ge_1 r "page" 1 ltac:(lia)) as Hp.
  pose proof (query_int_ge_1 r "pageSize" 10 ltac:(lia)) as Hs.
  eexists. split; [reflexivity |].
  rewrite page_slice_take_drop by assumption.
  rewrite length_take, length_drop, (range_order_length _ _ Hl).
  assert (0 <= (query_int r "page" 1 - 1) * query_int r "pageSize" 10) by nia.
  lia.
Qed.

(** X14. The list route panics exactly when the start index has wrapped
    below zero, or when it lies inside the list and adding the page size to
    it leaves [int]; in every other case it answers 200. *)
Theorem list_panics_iff (employeeList : list Employee) r :
  ListEmployees_over employeeList r = Panicked <->
  wrap (wrap (query_int r "page" 1 - 1) * query_int r "pageSize" 10) < 0 \/
  (wrap (wrap (query_int r "page" 1 - 1) * query_int r "pageSize" 10)
     < Z.of_nat (length employeeList) /\
   maxInt < wrap (wrap (query_int r "page" 1 - 1) * query_int r "pageSize" 10)
            + query_int r "pageSize" 10).
Proof.
  pose proof (query_int_range r "pageSize" 10 ltac:(unfold maxInt; lia)) as Hs.
  unfold ListEmployees_over, paginate.
  pose proof (wrap_range (wrap (query_int r "page" 1 - 1) * query_int r "pageSize" 10))
    as Hstart.
  set (pageSize := query_int r "pageSize" 10) in *.
  set (startIdx := wrap (wrap (query_int r "page" 1 - 1) * pageSize)) in *.
  destruct (Z.geb_spec startIdx (Z.of_nat (length employeeList))) as [Hge | Hlt].
  - split; [discriminate | lia].
  - destruct (Z.lt_ge_cases startIdx 0) as [Hneg | Hpos].
    + rewrite slice_negative by exact Hneg. split; auto.
    + destruct (Z.le_gt_cases (startIdx + pageSize) maxInt) as [Hfit | Hover].
      * rewrite (wrap_in_range (startIdx + pageSize))
          by (unfold in_range, minInt, maxInt in *; lia).
        rewrite slice_in_bounds; [split; [discriminate | lia] | |];
          destruct (Z.gtb_spec (startIdx + pageSize) (Z.of_nat (length employeeList)));
          lia.
      * assert (Hw : wrap (startIdx + pageSize) < 0).
        { unfold wrap, in_range, minInt, maxInt in *.
          change (2 ^ 63) with 9223372036854775808 in *.
          change (2 ^ 64) with 18446744073709551616 in *.
          replace (startIdx + pageSize + 9223372036854775808)
            with (startIdx + pageSize - 9223372036854775808 + 1 * 18446744073709551616)
            by lia.
          rewrite Z.mod_add by lia. rewrite Z.mod_small by lia. lia. }
        destruct (Z.gtb_spec (wrap (startIdx + pageSize))
                    (Z.of_nat (length employeeList))); [lia |].
        unfold slice.
        destruct (Z.leb_spec startIdx (wrap (startIdx + pageSize))); [lia |].
        rewrite andb_false_r. cbn. split; auto.
Qed.


(** ** Malformed path identifiers, and the list without parameters *)

Lemma Atoi_numeral_cases s :
  (exists id, decimal_value s = Some id /\ in_range id /\ strconv.Atoi s = (id, None)) \/
  ((~ exists id, decimal_value s = Some id /\ in_range id) /\
   exists v e, strconv.Atoi s = (v, Some e)).
Proof.
  pose proof (Atoi_decimal s) as HD. destruct (decimal_value s) as [w |].
  - destruct ((minInt <=? w) && (w <=? maxInt)) eqn:Hin.
    + left. exists w. apply andb_true_iff in Hin. rewrite !Z.leb_le in Hin.
      unfold in_range. auto.
    + right. split.
      * intros (id & [= <-] & Hr). unfold in_range in Hr.
        apply andb_false_iff in Hin. rewrite !Z.leb_gt in Hin. lia.
      * destruct HD as (e & HA & _). eauto.
  - right. split; [intros (id & Hd & _); discriminate | exact HD].
Qed.

Section PathIdentifier.

Variable Decode : string -> string + Employee.

(** X17. Which path identifiers are refused: a read and a delete answer
    400, Invalid employee ID, exactly when the text in the path is not a
    decimal numeral (optional sign, then digits only) with a value in
    [int]; an update with such a text is answered the same way and leaves
    the store alone, before its header or body is looked at. *)
Theorem malformed_path_id st r :
  (GetEmployeeByID st r = Error "Invalid employee ID" StatusBadRequest <->
   ~ exists id, decimal_value (idStr r) = Some id /\ in_range id) /\
  ((DeleteEmployee st r).2 = Error "Invalid employee ID" StatusBadRequest <->
   ~ exists id, decimal_value (idStr r) = Some id /\ in_range id) /\
  ((~ exists id, decimal_value (idStr r) = Some id /\ in_range id) ->
   UpdateEmployee Decode st r = (st, Error "Invalid employee ID" StatusBadRequest)).
Proof.
  unfold GetEmployeeByID, DeleteEmployee, UpdateEmployee.
  destruct (Atoi_numeral_cases (idStr r)) as [(id & Hd & Hr & ->) | [Hno (v & e & ->)]].
  - assert (Hyes : exists id, decimal_value (idStr r) = Some id /\ in_range id) by eauto.
    repeat split; try (intros Hno; contradiction).
    + destruct (employees st !! id); discriminate.
    + destruct (employees st !! id); discriminate.
  - repeat split; auto.
Qed.

End PathIdentifier.

(** X18. Without the two query parameters the list route answers with
    the first ten records of the enumeration it made of the store, so a
    store of at most ten records is listed whole. *)
Theorem list_without_parameters st r out :
  URL_Query r !! "page" = None -> URL_Query r !! "pageSize" = None ->
  ListEmployees st r out ->
  exists employeeList,
    range_order (employees st) employeeList /\
    out = Responded (Encode (JSON_List (take 10 employeeList))) /\
    ((size (employees st) <= 10)%nat ->
     out = Responded (Encode (JSON_List employeeList))).
Proof.
  intros Hpage Hsize Hlist.
  pose proof (query_int_missing r "page" 1 Hpage) as Hp.
  pose proof (query_int_missing r "pageSize" 10 Hsize) as Hs.
  destruct (ListEmployees_in_range st r out) as (l & Hl & ->);
    [rewrite Hp, Hs; unfold maxInt; lia | exact Hlist |].
  exists l. rewrite Hp, Hs. rewrite page_slice_take_drop by lia.
  change (Z.to_nat ((1 - 1) * 10)) with 0%nat. change (Z.to_nat 10) with 10%nat.
  rewrite drop_0. repeat split; [exact Hl |].
  intros Hle. rewrite take_ge; [reflexivity |].
  rewrite (range_order_length _ _ Hl). exact Hle.
Qed.

(** ** The further properties at concrete requests *)

Lemma two_keys_issued : keys_issued two.
Proof.
  intros id [emp Hm]. unfold two in *. cbn in *.
  rewrite lookup_insert in Hm. case_decide as H1; [lia |].
  rewrite lookup_insert in Hm. case_decide as H2; [lia |].
  by rewrite lookup_empty in Hm.
Qed.

Lemma path_id_round_trip_witness :
  strconv.Atoi (idStr (get_id 42)) = (42, None) /\
  forall body, strconv.Atoi (idStr (put_id 42 body)) = (42, None).
Proof.
  apply (path_id_round_trip 42). unfold in_range, minInt, maxInt. lia.
Defined.


Lemma other_records_untouched_witness :
  employees (DeleteEmployee two (by_id "1")).1 !! 2 = employees two !! 2.
Proof.
  apply (other_records_untouched decode_name DELETE_employees_id two (by_id "1")
           (DeleteEmployee two (by_id "1")).1
           (Responded (DeleteEmployee two (by_id "1")).2) 2).
  - apply serve_Delete.
  - vm_compute. discriminate.
Defined.

Lemma reachable_store_witness :
  keyed_by_ID (DeleteEmployee (CreateEmployee decode_name init (post "Ann")).1 (get_id 1)).1 /\
  keys_issued (DeleteEmployee (CreateEmployee decode_name init (post "Ann")).1 (get_id 1)).1 /\
  0 <= lastID (DeleteEmployee (CreateEmployee decode_name init (post "Ann")).1 (get_id 1)).1
    <= Z.of_nat (length [(POST_employees, post "Ann"); (DELETE_employees_id, get_id 1)]).
Proof.
  apply (reachable_store decode_name
           [(POST_employees, post "Ann"); (DELETE_employees_id, get_id 1)]
           (DeleteEmployee (CreateEmployee decode_name init (post "Ann")).1 (get_id 1)).1
           [Responded (CreateEmployee decode_name init (post "Ann")).2;
            Responded (DeleteEmployee (CreateEmployee decode_name init (post "Ann")).1
                         (get_id 1)).2]).
  - eapply run_cons; [apply serve_Create |].
    eapply run_cons; [apply serve_Delete |]. apply run_nil.
  - unfold maxInt. simpl. lia.
Defined.

Lemma create_is_fresh_witness :
  (forall id, is_Some (employees two !! id) -> id < lastID two + 1) /\
  employees two !! (lastID two + 1) = None /\
  employees (CreateEmployee decode_name two (post "Ann")).1
    = <[lastID two + 1 :=
          set_ID {| ID := 99; Name := "Ann"; Position := "Position"; Salary := 0 |}
                 (lastID two + 1)]> (employees two) /\
  size (employees (CreateEmployee decode_name two (post "Ann")).1)
    = S (size (employees two)) /\
  (forall id emp, employees two !! id = Some emp ->
                  employees (CreateEmployee decode_name two (post "Ann")).1 !! id = Some emp).
Proof.
  apply (create_is_fresh decode_name two (post "Ann")).
  - exact two_keys_issued.
  - unfold maxInt. simpl. lia.
  - reflexivity.
Defined.

Lemma create_then_delete_witness :
  lastID (CreateEmployee decode_name two (post "Ann")).1 = lastID two + 1 /\
  DeleteEmployee (CreateEmployee decode_name two (post "Ann")).1
                 (get_id (lastID (CreateEmployee decode_name two (post "Ann")).1))
    = ({| employees := employees two; lastID := lastID two + 1 |},
       {| StatusCode := StatusNoContent; ContentType := EmptyString; Written := NoContent |}).
Proof.
  apply (create_then_delete decode_name two (post "Ann")
           {| ID := 99; Name := "Ann"; Position := "Position"; Salary := 0 |}).
  - exact two_keys_issued.
  - unfold maxInt. simpl. lia.
  - reflexivity.
Defined.


Lemma list_reply_is_segment_witness :
  exists employeeList before results after,
    range_order (employees two) employeeList /\
    employeeList = (before ++ results ++ after)%list /\
    Encode (JSON_List [alice; bob]) = Encode (JSON_List results) /\
    Z.of_nat (length results) <= query_int (query []) "pageSize" 10 /\
    (forall emp, emp ∈ results -> exists id, employees two !! id = Some emp).
Proof.
  apply (list_reply_is_segment two (query []) (Encode (JSON_List [alice; bob]))).
  exact (ListEmployees_range two (query []) [alice; bob] (proj1 range_order_two)).
Defined.

Lemma pages_partition_the_list_witness :
  exists pages,
    Forall2 (fun page results => paginate page 10 (staff 25) = Some results)
            (seqZ 1 (Z.of_nat 3)) pages /\
    concat pages = take (Z.to_nat (Z.of_nat 3 * 10)) (staff 25) /\
    (Z.of_nat (length (staff 25)) <= Z.of_nat 3 * 10 -> concat pages = staff 25).
Proof.
  apply (pages_partition_the_list 10 (staff 25) 3).
  - lia.
  - unfold maxInt. simpl. lia.
Defined.

Lemma list_reply_count_witness :
  exists results,
    Responded (Encode (JSON_List [alice])) = Responded (Encode (JSON_List results)) /\
    Z.of_nat (length results)
      = Z.max 0 (Z.min (query_int page_1_of_1 "pageSize" 10)
                       (Z.of_nat (size (employees two))
                        - (query_int page_1_of_1 "page" 1 - 1)
                          * query_int page_1_of_1 "pageSize" 10)).
Proof.
  apply (list_reply_count two page_1_of_1 (Responded (Encode (JSON_List [alice])))).
  - vm_compute. discriminate.
  - exact (ListEmployees_range two page_1_of_1 [alice; bob] (proj1 range_order_two)).
Defined.

Lemma list_without_parameters_witness :
  exists employeeList,
    range_order (employees two) employeeList /\
    Responded (Encode (JSON_List [bob; alice]))
      = Responded (Encode (JSON_List (take 10 employeeList))) /\
    ((size (employees two) <= 10)%nat ->
     Responded (Encode (JSON_List [bob; alice]))
       = Responded (Encode (JSON_List employeeList))).
Proof.
  apply (list_without_parameters two (query [])
           (Responded (Encode (JSON_List [bob; alice])))).
  - reflexivity.
  - reflexivity.
  - exact (ListEmployees_range two (query []) [bob; alice] (proj2 range_order_two)).
Defined.
